(** * PetAdoption-API: the MongoDB data-access core

    A shallow embedding of
      - core/mongodb/lib/database/index.js  (Database: exec queue and CRUD),
      - core/mongodb/animal.js              (AnimalDatabase: upsert, hooks),
      - core/mongodb/timestamped.js         (TimestampedDatabase: findLatest).

    JavaScript objects are finite maps from property names to values and
    live in a heap, so that an options object shared between a caller and
    the library is one object seen through two references.  Asynchronous
    work is split where the source splits it: the function that issues a
    store operation, and the completion handler the store calls back. *)

From stdpp Require Import base option list strings gmap.
From Stdlib Require Import ZArith Ascii DecimalString.

Open Scope string_scope.
Set Warnings "-register-all".

(** ** JavaScript values *)

Module JS.

Abbreviation loc := positive.

(** Errors that travel as the first argument of a completion callback. *)
Inductive error :=
| DriverError (code : nat)          (* an error object produced by the store driver or the cache *)
| Error (msg : string)              (* new Error(msg) *)
| DBErrorOf (cause : error)         (* new DBError(err) *)
| DBErrorMsg (msg : string)         (* new DBError("...") *)
| DBErrorCode (msg : string) (code : nat). (* new DBError("...", 500) *)

Inductive jsval :=
| JUndefined
| JNull
| JBool (b : bool)
| JNum (n : Z)
| JStr (s : string)
| JId (hex : string)                (* a store ObjectId, kept by its string form *)
| JDate (year month day : nat)      (* a Date, kept by its local calendar date *)
| JFun (name : string)              (* a callable *)
| JObj (l : loc)                    (* a reference to a heap object *)
| JErr (e : error).

Global Instance error_eq_dec : EqDecision error.
Proof. solve_decision. Defined.
Global Instance jsval_eq_dec : EqDecision jsval.
Proof. solve_decision. Defined.

(** ToBoolean. Numbers are integers here, so NaN does not arise. *)
Definition truthy (v : jsval) : bool :=
  match v with
  | JUndefined | JNull => false
  | JBool b => b
  | JNum n => negb (n =? 0)%Z
  | JStr s => negb (String.eqb s "")
  | JId _ | JDate _ _ _ | JFun _ | JObj _ | JErr _ => true
  end.

(** [a || b] *)
Definition js_or (a b : jsval) : jsval := if truthy a then a else b.

(** An object is its own enumerable properties; the heap maps references
    to objects. *)
Abbreviation obj := (gmap string jsval).
Abbreviation heap := (gmap positive (gmap string jsval)).

(** [o.k]: a missing property reads as undefined. *)
Definition get (k : string) (o : gmap string jsval) : jsval := default JUndefined (o !! k).

(** [v.k] through a reference; reading a property of a dangling or
    non-object value is not used by the code below on such values. *)
Definition deref (h : heap) (v : jsval) : gmap string jsval :=
  match v with
  | JObj l => default ∅ (h !! l)
  | _ => ∅
  end.

Definition decimal (n : nat) : string := NilEmpty.string_of_uint (Nat.to_uint n).

(** The integers JavaScript holds exactly and prints digit by digit. *)
Definition isSafeInteger (n : Z) : bool := (Z.abs n <? 2 ^ 53)%Z.

(** [String(v)], which is also what ['%s'] of [util.format] prints.  The
    text of a function, of a date and of an error is abridged: none of it
    is looked at below.  So is the text of a number outside the safe
    integers, which JavaScript prints from the shortest decimal of its
    floating-point value (rounded digits, or exponent form from 1e21 on). *)
Definition String_of (v : jsval) : string :=
  match v with
  | JUndefined => "undefined"
  | JNull => "null"
  | JBool true => "true"
  | JBool false => "false"
  | JNum n =>
      if isSafeInteger n
      then if (0 <=? n)%Z then decimal (Z.to_nat n) else "-" ++ decimal (Z.to_nat (- n))
      else "[number]"
  | JStr s => s
  | JId hex => hex
  | JDate y m d => decimal y ++ "-" ++ decimal m ++ "-" ++ decimal d
  | JFun name => "function " ++ name
  | JObj _ => "[object Object]"
  | JErr _ => "Error"
  end.

(** [v.toString()]: a TypeError ([None]) on undefined and null. *)
Definition toString (v : jsval) : option string :=
  match v with
  | JUndefined | JNull => None
  | _ => Some (String_of v)
  end.

Definition isFunction (v : jsval) : bool := match v with JFun _ => true | _ => false end.
Definition isPlainObject (v : jsval) : bool := match v with JObj _ => true | _ => false end.

(** *** lodash [_.defaults]

    [_.defaults(object, ...sources)] assigns, source by source from left to
    right, every source property whose key resolves to [undefined] in the
    destination; it MUTATES [object] and returns it.  A null or undefined
    destination is first replaced by a new empty object (lodash 4:
    [object = Object(object)]); null or undefined sources are skipped.
    The callers below pass an object or nothing as [object]. *)

Definition defaults_key (dst src : option jsval) : option jsval :=
  match dst, src with
  | Some JUndefined, Some v => Some v
  | None, Some v => Some v
  | d, _ => d
  end.

Definition defaults1 (dst src : gmap string jsval) : gmap string jsval :=
  merge defaults_key dst src.

(** A source is an object literal written at the call site, or a value
    held in a variable (possibly undefined). *)
Inductive source :=
| Lit (o : gmap string jsval)
| Val (v : jsval).

Definition source_obj (h : heap) (s : source) : gmap string jsval :=
  match s with
  | Lit o => o
  | Val v => deref h v
  end.

Definition defaults_obj (h : heap) (o : gmap string jsval) (srcs : list source) : gmap string jsval :=
  foldl (fun acc s => defaults1 acc (source_obj h s)) o srcs.

(** Returns the heap after the call and the reference [_.defaults] returns. *)
Definition defaults (h : heap) (object : jsval) (srcs : list source) : heap * loc :=
  match object with
  | JObj l => (<[l := defaults_obj h (default ∅ (h !! l)) srcs]> h, l)
  | _ => let l := fresh (dom h) in (<[l := defaults_obj h ∅ srcs]> h, l)
  end.

End JS.
Export JS.


(** ** Connection adapter *)

Module Adapter.

(** Modelled from the spec: core/mongodb/lib/adapter.js is not among the
    sources.  Spec section 3 gives the states and the transitions: closed
    to connecting on connect(); connecting to connected on success;
    connected to disconnected on an external disconnect event; connected
    or disconnected to closed on close().  isConnected() and isClosed()
    are pure state queries (section 4.1). *)
Inductive state := closed | connecting | connected | disconnected.

Definition isConnected (a : state) : bool :=
  match a with connected => true | _ => false end.

Definition isClosed (a : state) : bool :=
  match a with closed => true | _ => false end.

Definition connect (a : state) : state :=
  match a with closed => connecting | _ => a end.

Definition onSuccess (a : state) : state :=
  match a with connecting => connected | _ => a end.

Definition onDisconnected (a : state) : state :=
  match a with connected => disconnected | _ => a end.

Definition close (a : state) : state := closed.

End Adapter.

(** ** Closures, store requests and the observable trace *)

(** Function values the library passes around.  [Plain v] is an ordinary
    JavaScript value received from the caller (a function, an object, or
    undefined); the other constructors are the closures the library itself
    creates, one per [function (err, result) {...}] in the source, holding
    the variables that closure captures. *)
Inductive closure :=
| Plain (v : jsval)
| KFindOne (_options : loc)                  (* index.js:208 *)
| KUpdate (_options : loc)                   (* index.js:279 *)
| KCreate (_options : loc)                   (* index.js:306 *)
| KGetLatest (callback : closure)            (* timestamped.js:50 *)
| KFindLatest (name : string) (_options : loc) (* timestamped.js:76, index.js:233 *)
| KCacheDone (_options : loc) (doc : gmap string jsval)   (* timestamped.js:86 *)
| KUpsertUpdated (onComplete : closure)      (* animal.js:81 *)
| KUpsertCreated (onComplete : closure)      (* animal.js:90 *)
| KStaticFindAnimals (onComplete : closure)  (* animal.js:118 *)
| KFindAnimals (_options : loc)              (* animal.js:201 *)
| KSaveAnimal (_options : loc)               (* animal.js:237 *)
| KRemoveAnimal (_options : loc).            (* animal.js:164 *)

(** Operations handed to the store driver (the Mongoose model). *)
Inductive request :=
| ReqFindOne (props : gmap string jsval)                       (* findOne(props).lean() *)
| ReqFindOneSorted (props : gmap string jsval) (key : string) (dir : Z) (* findOne(props).lean().sort({key: dir}) *)
| ReqFindOneAndUpdate (whereProps data : gmap string jsval) (options : jsval)
| ReqSave (doc : gmap string jsval)                            (* doc.save(cb) *)
| ReqCreate (data : gmap string jsval)                         (* model.create(data, cb) *)
| ReqFind (query : gmap string jsval)                          (* find(query).lean() *)
| ReqRemove (filter : gmap string jsval).                      (* remove(filter, cb) *)

(** An Animal value object built by [new Animal(props)] and
    [setValue('petId', id)], rendered by toObject() (V1) or toLeanObject().
    The Animal class is outside the sources; the rendering is kept symbolic. *)
Inductive rendering := Rendered (isV1 : bool) (props : jsval) (petId : string).

(** What is passed in one argument position of a callback. *)
Inductive arg :=
| AAbsent                                  (* the undefined or null a store operation handed over, passed on *)
| AVal (v : jsval)
| ADoc (d : gmap string jsval)
| ADocs (ds : list (gmap string jsval))
| AOpInfo (n : option nat)
| AAnimal (r : rendering)
| AAnimals (rs : list rendering).

Inductive event :=
| Ran (name : string)                           (* a callable handed to exec was applied *)
| Store (r : request) (cb : closure)            (* a store operation was issued, with its completion closure *)
| CacheSave (cacheType : string) (data : gmap string jsval) (name dir : string) (done : closure)
| Call (f : jsval) (this : jsval) (args : list arg)  (* a caller's callback was invoked *)
| LogError (e : error)                          (* self.error(err) *)
| Connect                                       (* adapter.connect() *)
| Threw (name : string).                        (* the callable threw; nothing follows until the exception is caught *)

(** ** The operation queue *)

(** What [exec] can be handed.  [Callable name body] is an arbitrary
    function that returns: when applied it may call [this.exec] again,
    any number of times, with a function ([Some t]) or with nothing
    ([None]).  What it does may depend on its own closure state, here the
    number of times it has been applied before.  [Throwing name body] is
    a function that may throw: [body] also tells whether the application
    ends, after those calls, in an exception.  The other constructors are
    the seven thunks the CRUD methods create. *)
Inductive thunk :=
| Callable (name : string) (body : nat -> list (option thunk))
| Throwing (name : string) (body : nat -> list (option thunk) * bool)
| TFindOne (props : gmap string jsval) (_options : loc)
| TFindLatest (name : string) (_options : loc)
| TUpdate (whereProps saveProps : gmap string jsval) (options : jsval) (_options : loc)
| TCreate (saveProps : gmap string jsval) (_options : loc)
| TRemoveAnimal (animal : gmap string jsval) (_options : loc)
| TFindAnimals (props : gmap string jsval) (_options : loc)
| TSaveAnimal (query animalDocData : gmap string jsval) (_options : loc).

(** The Mongoose model: [new Model(props).toObject()] casts the properties
    through the schema and adds a fresh [_id]; the schema is outside the
    sources, so the cast is a field of the model.  So is the translation
    of a domain query ([new AnimalQuery(props).toMongoQuery()]), and so is
    what [moment(t).format('M.D.YYYY')] prints for a [t] that is not a
    Date: moment takes the current time for undefined, an epoch time for
    a number and parses a string, and the date it prints then depends on
    the clock and the time zone of the process. *)
Record Model := {
  newToObject : gmap string jsval -> gmap string jsval;
  toMongoQuery : gmap string jsval -> gmap string jsval;
  collectionName : string;           (* collection.getCollectionName() *)
  modelName : string;                (* modelFactory.getModelName() *)
  momentOther : jsval -> string;     (* moment(t).format('M.D.YYYY'), t not a Date *)
}.

Record Database := {
  heap : JS.heap;
  _queue : list thunk;
  _isActive : bool;                  (* undefined until start(): falsy *)
  _adapter : Adapter.state;
  _config : gmap string jsval;
  MongooseModel : Model;
  trace : list event;                (* oldest first *)
}.

Definition set_heap (h : JS.heap) (s : Database) : Database :=
  {| heap := h; _queue := _queue s; _isActive := _isActive s; _adapter := _adapter s;
     _config := _config s; MongooseModel := MongooseModel s; trace := trace s |}.
Definition set_queue (q : list thunk) (s : Database) : Database :=
  {| heap := heap s; _queue := q; _isActive := _isActive s; _adapter := _adapter s;
     _config := _config s; MongooseModel := MongooseModel s; trace := trace s |}.
Definition set_isActive (b : bool) (s : Database) : Database :=
  {| heap := heap s; _queue := _queue s; _isActive := b; _adapter := _adapter s;
     _config := _config s; MongooseModel := MongooseModel s; trace := trace s |}.
Definition set_adapter (a : Adapter.state) (s : Database) : Database :=
  {| heap := heap s; _queue := _queue s; _isActive := _isActive s; _adapter := a;
     _config := _config s; MongooseModel := MongooseModel s; trace := trace s |}.
Definition set_config (c : gmap string jsval) (s : Database) : Database :=
  {| heap := heap s; _queue := _queue s; _isActive := _isActive s; _adapter := _adapter s;
     _config := c; MongooseModel := MongooseModel s; trace := trace s |}.
Definition emit (evs : list event) (s : Database) : Database :=
  {| heap := heap s; _queue := _queue s; _isActive := _isActive s; _adapter := _adapter s;
     _config := _config s; MongooseModel := MongooseModel s; trace := trace s ++ evs |}.

Definition isActive (s : Database) : bool := _isActive s.

(** [getConfig(propName)] *)
Definition getConfig (propName : string) (s : Database) : jsval := get propName (_config s).
(** [setConfig(propName, propValue)] *)
Definition setConfig (propName : string) (propValue : jsval) (s : Database) : Database :=
  set_config (<[propName := propValue]> (_config s)) s.

(** How often the callable [name] has been applied so far. *)
Fixpoint timesRan (name : string) (tr : list event) : nat :=
  match tr with
  | [] => 0
  | Ran n :: tr' => (if String.eqb n name then 1 else 0) + timesRan name tr'
  | _ :: tr' => timesRan name tr'
  end.

(** *** The static methods of the collection, as far as they issue requests *)

(** timestamped.js:41-49, [getLatest(callback)]. *)
Definition getLatest (callback : closure) : list event :=
  [Store (ReqFindOneSorted ∅ "timestamp" (-1)) (KGetLatest callback)].

(** [_.isPlainObject] on what was passed as [options]. *)
Definition closure_isPlainObject (c : closure) : bool :=
  match c with Plain v => isPlainObject v | _ => false end.

(** animal.js:66-105, the static [upsert(searchProps, saveData, options, callback)].
    [options] and [callback] are whatever the caller passed in those
    positions; the three-argument form passes the callback as [options]. *)
Definition upsert (h : JS.heap) (searchProps saveData : gmap string jsval)
    (options callback : closure) : JS.heap * list event :=
  let hasOptions := closure_isPlainObject options in
  let '(h1, _options) :=
    defaults h (match options with Plain (JObj l) => JObj l | _ => JUndefined end)
             [Lit {[ "upsert" := JBool true; "new" := JBool true ]}] in
  let onComplete := if hasOptions then callback else options in
  if truthy (get "petId" searchProps) then
    (h1, [Store (ReqFindOneAndUpdate {[ "petId" := get "petId" searchProps ]} saveData (JObj _options))
                (KUpsertUpdated onComplete)])
  else
    (h1, [Store (ReqCreate saveData) (KUpsertCreated onComplete)]).

(** animal.js:107-117, the static [findAnimals(props, options, callback)]. *)
Definition static_findAnimals (m : Model)
    (h : JS.heap) (props : gmap string jsval) (options callback : closure)
    : JS.heap * list event :=
  let hasOptions := closure_isPlainObject options in
  let h1 := match options with
            | Plain (JObj l) => fst (defaults h (JObj l) [Lit ∅])
            | _ => h
            end in
  let onComplete := if hasOptions then callback else options in
  (h1, [Store (ReqFind (toMongoQuery m props)) (KStaticFindAnimals onComplete)]).

(** *** Applying a queued thunk: the body of each [function () {...}]
    handed to [exec] *)

(** [alloc h o]: a new object for an object literal. *)
Definition alloc (h : JS.heap) (o : gmap string jsval) : JS.heap * loc :=
  let l := fresh (dom h) in (<[l := o]> h, l).

(** The CRUD thunks: none of them calls [exec]. *)
Definition run_crud (t : thunk) (s : Database) : Database :=
  match t with
  | Callable _ _ | Throwing _ _ => s
  | TFindOne props _options =>                                   (* index.js:203-214 *)
      emit [Store (ReqFindOne props) (KFindOne _options)] s
  | TFindLatest name _options =>                                 (* timestamped.js:75-76 *)
      emit (getLatest (KFindLatest name _options)) s
  | TUpdate whereProps saveProps options _options =>             (* index.js:268-279 *)
      let data := delete "__v" (delete "_id" (newToObject (MongooseModel s) saveProps)) in
      emit [Store (ReqFindOneAndUpdate whereProps data options) (KUpdate _options)] s
  | TCreate saveProps _options =>                                (* index.js:301-306 *)
      emit [Store (ReqSave (newToObject (MongooseModel s) saveProps)) (KCreate _options)] s
  | TRemoveAnimal animal _options =>                             (* animal.js:160-164 *)
      emit [Store (ReqRemove {[ "_id" := get "petId" animal ]}) (KRemoveAnimal _options)] s
  | TFindAnimals props _options =>                               (* animal.js:196-201 *)
      let '(h1, l) := alloc (heap s) {[ "isV1Format" := get "isV1Format" (deref (heap s) (JObj _options)) ]} in
      let '(h2, evs) := static_findAnimals (MongooseModel s) h1 props (Plain (JObj l)) (KFindAnimals _options) in
      emit evs (set_heap h2 s)
  | TSaveAnimal query animalDocData _options =>                  (* animal.js:229-237 *)
      let '(h1, l) := alloc (heap s) {[ "isV1Format" := get "isV1Format" (deref (heap s) (JObj _options)) ]} in
      let '(h2, evs) := upsert h1 query animalDocData (Plain (JObj l)) (KSaveAnimal _options) in
      emit evs (set_heap h2 s)
  end.

(** An exception on its way out of a call is the last thing the trace
    holds, and the call has added to the trace. *)
Definition threw (before after : Database) : bool :=
  (length (trace before) <? length (trace after))%nat &&
  match last (trace after) with Some (Threw _) => true | _ => false end.

(** The [this.exec(...)] calls a function makes, one after the other; an
    exception thrown inside one of them leaves the function too. *)
Fixpoint call_execs (exec : option thunk -> Database -> option Database)
    (calls : list (option thunk)) (s : Database) : option Database :=
  match calls with
  | [] => Some s
  | f :: calls' =>
      s' ← exec f s;
      if threw s s' then Some s' else call_execs exec calls' s'
  end.

(** [self._queue[0].callback.apply(self)], given [exec] for the calls the
    thunk makes back into the Database. *)
Definition apply_thunk (exec : option thunk -> Database -> option Database)
    (t : thunk) (s : Database) : option Database :=
  match t with
  | Callable name body =>
      call_execs exec (body (timesRan name (trace s))) (emit [Ran name] s)
  | Throwing name body =>
      let '(calls, throws) := body (timesRan name (trace s)) in
      s' ← call_execs exec calls (emit [Ran name] s);
      Some (if throws && negb (threw s s') then emit [Threw name] s' else s')
  | _ => Some (run_crud t s)
  end.

(** index.js:72-77.  [shift()] on an empty array does nothing.  There is
    no try around the application: an exception leaves the loop, and
    [exec], before the [shift()]. *)
Fixpoint processQueue (exec : option thunk -> Database -> option Database)
    (fuel : nat) (s : Database) : option Database :=
  match fuel with
  | O => None
  | S fuel' =>
      match _queue s with
      | [] => Some s
      | t :: _ =>
          s' ← apply_thunk exec t s;
          if threw s s' then Some s'
          else processQueue exec fuel' (set_queue (tail (_queue s')) s')
      end
  end.

(** index.js:64-71: a function joins the tail of the queue; anything else
    ([None]) is let through. *)
Definition enqueue (func : option thunk) (s : Database) : Database :=
  match func with
  | Some t => set_queue (_queue s ++ [t]) s
  | None => s
  end.

(** index.js:61-84, [exec(func)].  The result is [None] when the fuel runs
    out, which is how unbounded recursion shows; a call that an exception
    leaves gives the state at the throw ([threw]). *)
Fixpoint exec (fuel : nat) (func : option thunk) (s : Database) : option Database :=
  match fuel with
  | O => None
  | S fuel' =>
      let s1 := enqueue func s in
      if Adapter.isConnected (_adapter s1) && isActive s1 then
        processQueue (exec fuel') fuel' s1
      else if Adapter.isClosed (_adapter s1) then
        Some (emit [Connect] (set_adapter (Adapter.connect (_adapter s1)) s1))
      else Some s1
  end.

(** index.js:150-153 *)
Definition start (fuel : nat) (s : Database) : option Database :=
  exec fuel None (set_isActive true s).

(** index.js:159-166; the callback is the caller's business. *)
Definition stop (s : Database) : Database :=
  let s1 := set_isActive false s in
  if negb (Adapter.isClosed (_adapter s1)) then set_adapter (Adapter.close (_adapter s1)) s1
  else s1.

(** The empty function of index.js:132-134. *)
Definition update_queue : thunk := Callable "update queue" (fun _ => []).

(** index.js:129-136 with the constructor's callback (index.js:31-35): what
    runs when the adapter reports a successful connect. *)
Definition onConnectSuccess (fuel : nat) (s : Database) : option Database :=
  let s0 := set_adapter (Adapter.onSuccess (_adapter s)) s in
  s1 ← start fuel s0;
  if threw s0 s1 then Some s1 else exec fuel (Some update_queue) s1.

(** index.js:125-127, the 'disconnected' handler.  It assigns
    [this._isActive = false] inside a plain function, so which object is
    written depends on the receiver the adapter calls its subscribers
    with; the adapter is outside the sources, hence both cases. *)
Inductive receiver := ThisIsDatabase | ThisIsAdapter.

Definition onDisconnected (r : receiver) (s : Database) : Database :=
  let s1 := set_adapter (Adapter.onDisconnected (_adapter s)) s in
  match r with
  | ThisIsDatabase => set_isActive false s1
  | ThisIsAdapter => s1
  end.

(** ** Completion handlers *)

(** What a store operation hands to its callback besides the error.  Each
    handler below is written for the shapes its own operation produces (a
    document or nothing for findOne, findOneAndUpdate, save and create; a
    list for find; a report for remove). *)
Inductive result :=
| Absent                                      (* undefined or null *)
| Doc (d : gmap string jsval)
| Docs (ds : list (gmap string jsval))
| OpInfo (n : option nat).                    (* a remove report: {result: {n}}, or one without result *)

(** A handler returns, or throws after having done part of its work. *)
Inductive completion :=
| Returned (evs : list event)
| Thrown (evs : list event) (what : string).

Definition after (evs : list event) (c : completion) : completion :=
  match c with
  | Returned evs' => Returned (evs ++ evs')
  | Thrown evs' w => Thrown (evs ++ evs') w
  end.

Definition events_of (c : completion) : list event :=
  match c with Returned evs | Thrown evs _ => evs end.

Definition err_arg (err : option error) : arg :=
  match err with Some e => AVal (JErr e) | None => AVal JNull end.

Definition result_args (res : result) : list arg :=
  match res with
  | Absent => []
  | Doc d => [ADoc d]
  | Docs ds => [ADocs ds]
  | OpInfo n => [AOpInfo n]
  end.

(** The result as an argument of its own, whatever it is. *)
Definition result_arg (res : result) : arg :=
  match result_args res with
  | a :: _ => a
  | [] => AAbsent
  end.

(** [doc ? doc : {}] *)
Definition result_or_empty (res : result) : arg :=
  match result_args res with
  | a :: _ => a
  | [] => ADoc ∅
  end.

Definition result_truthy (res : result) : bool :=
  match res with Absent => false | _ => true end.

Definition closure_truthy (c : closure) : bool :=
  match c with Plain v => truthy v | _ => true end.

(** Calling a value received from the caller. *)
Definition call_user (f this : jsval) (args : list arg) : completion :=
  if isFunction f then Returned [Call f this args]
  else Thrown [] "TypeError: not a function".

(** [new DBError(err || msg)] *)
Definition DBError_or (err : option error) (msg : string) : error :=
  match err with Some e => DBErrorOf e | None => DBErrorMsg msg end.

(** [util.format('%s', v)] *)
Definition format_s (v : jsval) : string := String_of v.

Definition pad4 (s : string) : string :=
  String.concat "" (repeat "0" (4 - String.length s)) ++ s.

(** [moment(t).format('M.D.YYYY')]: month and day without padding, the
    year on four digits.  A document saved through the timestamp plugin
    (timestamped.js:35-38) carries a Date; for any other value the text
    is the model's [momentOther]. *)
Definition format_MDYYYY (model : Model) (t : jsval) : string :=
  match t with
  | JDate y m d => decimal m ++ "." ++ decimal d ++ "." ++ pad4 (decimal y)
  | _ => momentOther model t
  end.

(** *** [path.join] of Node, POSIX flavour

    The arguments that are not empty are joined with a slash and the
    result is normalised: empty segments and [.] go, [..] takes the
    segment before it away (and is kept at the front of a relative path),
    a leading and a trailing slash stay. *)
Fixpoint split_slash (s : string) : list string :=
  match s with
  | EmptyString => [""]
  | String c s' =>
      if Ascii.eqb c "/"%char then "" :: split_slash s'
      else match split_slash s' with
           | seg :: segs => String c seg :: segs
           | [] => [String c ""]
           end
  end.

(** The segments kept so far are held last first. *)
Definition normalize_segment (allowAboveRoot : bool) (kept : list string) (seg : string)
    : list string :=
  if String.eqb seg "" || String.eqb seg "." then kept
  else if String.eqb seg ".." then
    match kept with
    | top :: rest =>
        if String.eqb top ".." then (if allowAboveRoot then seg :: kept else kept) else rest
    | [] => if allowAboveRoot then [seg] else []
    end
  else seg :: kept.

Definition ends_with_slash (s : string) : bool :=
  match last (split_slash s) with Some "" => true | _ => false end.

Definition path_normalize (path : string) : string :=
  match path with
  | EmptyString => "."
  | String c _ =>
      let isAbsolute := Ascii.eqb c "/"%char in
      let trailingSeparator := ends_with_slash path in
      let p := String.concat "/"
                 (rev (foldl (normalize_segment (negb isAbsolute)) [] (split_slash path))) in
      let p1 := if String.eqb p "" && negb isAbsolute then "." else p in
      let p2 := if negb (String.eqb p1 "") && trailingSeparator then p1 ++ "/" else p1 in
      if isAbsolute then "/" ++ p2 else p2
  end.

Definition path_join (paths : list string) : string :=
  match List.filter (fun p => negb (String.eqb p "")) paths with
  | [] => "."
  | parts => path_normalize (String.concat "/" parts)
  end.

(** index.js:95-113, [cacheData(name, data, options)].  The cache itself
    (core/lib/cache) is outside the sources; spec section 6 gives
    [save(format, data, {name, dir, done})], which calls [done(err)] when
    the write completes. *)
Inductive cacheType := TypeArray (ts : list string) | TypeString (t : string).

Record cacheOptions := {
  dir : string;
  type : option cacheType;
  done : closure;
}.

Definition cacheData (name : string) (data : gmap string jsval) (options : cacheOptions)
    : list event :=
  match default (TypeArray ["json"]) (type options) with
  | TypeArray ts => map (fun cacheType => CacheSave cacheType data name (dir options) (done options)) ts
  | TypeString t => [CacheSave t data name (dir options) (done options)]
  end.

(** timestamped.js:82, index.js:239.  [name] is
    [self.collection.getCollectionName()] in the first and
    [self.modelFactory.getModelName()] in the second. *)
Definition cacheNamespace (s : Database) (name : string) (doc : gmap string jsval) : string :=
  format_s (js_or (getConfig "speciesName" s) (JStr name))
  ++ "." ++ format_MDYYYY (MongooseModel s) (get "timestamp" doc).

(** [animals.map(function (animalData) {...})] of animal.js:206-210;
    [None] when some [animalData._id] is missing. *)
Definition render_animal (isV1 : bool) (animalData : gmap string jsval) : option rendering :=
  petId ← toString (get "_id" animalData);
  Some (Rendered isV1 (get "props" animalData) petId).

(** [if (_options.complete) ...] *)
Definition if_complete (s : Database) (_options : loc) (k : jsval -> completion) : completion :=
  let complete := get "complete" (deref (heap s) (JObj _options)) in
  if truthy complete then k complete else Returned [].

Definition context_of (s : Database) (_options : loc) : jsval :=
  get "context" (deref (heap s) (JObj _options)).

(** [resume cwd s k err res]: the closure [k] is called with [(err, res)]
    while the Database is in state [s]; [cwd] is [process.cwd()]. *)
Fixpoint resume (cwd : string) (s : Database) (k : closure) (err : option error) (res : result)
    : completion :=
  match k with
  | Plain f => call_user f JUndefined (err_arg err :: result_args res)
  | KFindOne _options =>                                          (* index.js:208-212 *)
      let err1 := if bool_decide (is_Some err) || negb (result_truthy res)
                  then Some (DBError_or err "No results returned") else err in
      if_complete s _options (fun complete =>
        call_user complete (context_of s _options)
          [err_arg err1; result_or_empty res])
  | KUpdate _options =>                                           (* index.js:279-286 *)
      let err1 := DBErrorOf <$> err in
      after (from_option (fun e => [LogError e]) [] err1)
        (if_complete s _options (fun complete =>
           call_user complete (context_of s _options)
             [err_arg err1; result_or_empty res]))
  | KCreate _options =>                                           (* index.js:306-314 *)
      let err1 := DBErrorOf <$> err in
      after (from_option (fun e => [LogError e]) [] err1)
        (match res with
         | Absent => Thrown [] "TypeError: cannot read property toObject of undefined"
         | _ =>
             if_complete s _options (fun complete =>
               call_user complete (context_of s _options)
                 [err_arg err1; result_or_empty res])
         end)
  | KGetLatest callback =>                                        (* timestamped.js:50-58 *)
      match err with
      | Some e => resume cwd s callback (Some e) Absent
      | None =>
          if negb (result_truthy res)
          then resume cwd s callback (Some (Error "Model collection is empty()")) Absent
          else resume cwd s callback None res
      end
  | KFindLatest name _options =>                                  (* timestamped.js:76-92 *)
      match err, res with
      | None, Doc doc =>
          Returned (cacheData (cacheNamespace s name doc) doc
                      {| dir := path_join [cwd; "data/"]; type := Some (TypeArray ["json"]);
                         done := KCacheDone _options doc |})
      | _, _ =>
          let err1 := DBError_or err "No docs found" in
          after [LogError err1]
            (if_complete s _options (fun complete =>
               call_user complete (JObj _options) [err_arg (Some err1)]))
      end
  | KCacheDone _options doc =>                                    (* timestamped.js:86-89 *)
      if_complete s _options (fun complete =>
        call_user complete (JObj _options) [err_arg err; ADoc doc])
  | KUpsertUpdated onComplete =>                                  (* animal.js:81-88 *)
      match err, res with
      | None, Absent => Thrown [] "TypeError: cannot read property _id of null"
      | _, _ =>
          after (from_option (fun e => [LogError e]) [] err)
            (if closure_truthy onComplete then
               match onComplete with
               | Plain f =>     (* onComplete(err, animal): two arguments, whatever [animal] is *)
                   call_user f JUndefined [err_arg err; result_arg res]
               | _ => resume cwd s onComplete err res
               end
             else Returned [])
      end
  | KUpsertCreated onComplete =>                                  (* animal.js:90-103 *)
      let err1 := if bool_decide (err = None) && negb (result_truthy res)
                  then Some (Error "Animal could not be created") else err in
      if closure_truthy onComplete then
        match err1 with
        | Some e => resume cwd s onComplete (Some e) Absent
        | None => resume cwd s onComplete None res
        end
      else Returned []
  | KStaticFindAnimals onComplete =>                              (* animal.js:118-127 *)
      match err with
      | Some e => after [LogError e] (resume cwd s onComplete (Some e) Absent)
      | None =>
          match res with
          | Absent => Thrown [] "TypeError: cannot read property length of undefined"
          | _ => resume cwd s onComplete None res
          end
      end
  | KFindAnimals _options =>                                      (* animal.js:201-211 *)
      let err1 := DBErrorOf <$> err in
      after (from_option (fun e => [LogError e]) [] err1)
        (if_complete s _options (fun complete =>
           match res with
           | Docs animals =>
               let isV1 := truthy (get "isV1Format" (deref (heap s) (JObj _options))) in
               match mapM (render_animal isV1) animals with
               | Some rs => call_user complete (JObj _options) [err_arg err1; AAnimals rs]
               | None => Thrown [] "TypeError: cannot read property toString of undefined"
               end
           | _ => Thrown [] "TypeError: cannot read property map of undefined"
           end))
  | KSaveAnimal _options =>                                       (* animal.js:237-252 *)
      match err, res with
      | Some e, _ =>
          let err1 := DBErrorOf e in
          after [LogError err1]
            (if_complete s _options (fun complete =>
               call_user complete (JObj _options) [err_arg (Some err1)]))
      | None, Doc animalDoc =>
          match render_animal (truthy (get "isV1Format" (deref (heap s) (JObj _options)))) animalDoc with
          | Some r =>
              if_complete s _options (fun complete =>
                call_user complete (JObj _options) [err_arg None; AAnimal r])
          | None => Thrown [] "TypeError: cannot read property toString of undefined"
          end
      | None, Absent =>
          let saveErr := DBErrorCode "Animal Not Saved" 500 in
          after [LogError saveErr]
            (if_complete s _options (fun complete =>
               call_user complete (JObj _options) [err_arg (Some saveErr)]))
      | None, _ => Thrown [] "TypeError: cannot read property toString of undefined"
      end
  | KRemoveAnimal _options =>                                     (* animal.js:164-170 *)
      match err, res with
      | None, Absent => Thrown [] "TypeError: cannot read property result of undefined"
      | _, _ =>
          let failed := bool_decide (is_Some err) ||
                        match res with OpInfo (Some 0) => true | _ => false end in
          let err1 := if failed then Some (DBError_or err "Could not delete pet") else err in
          if_complete s _options (fun complete =>
            call_user complete (JObj _options)
              [err_arg err1;
               ADoc {[ "result" := JStr (if bool_decide (is_Some err1) then "failure" else "success") ]}])
      end
  end.

(** ** The public operations *)

(** [self._config.queryOptions], as a source of [_.defaults]. *)
Definition queryOptions (s : Database) : source := Val (get "queryOptions" (_config s)).

(** The constructor, index.js:24-54 with 121-137: an empty queue, not yet
    active, and a connect attempt under way. *)
Definition new_Database (m : Model) (h : JS.heap) (config : gmap string jsval) : Database :=
  {| heap := h; _queue := []; _isActive := false;
     _adapter := Adapter.connect Adapter.closed;
     _config := config; MongooseModel := m; trace := [Connect] |}.

(** index.js:199-215 *)
Definition findOne (fuel : nat) (props : gmap string jsval) (options : jsval) (s : Database)
    : option Database :=
  let '(h, _options) := defaults (heap s) options [queryOptions s] in
  exec fuel (Some (TFindOne props _options)) (set_heap h s).

(** timestamped.js:71-94 *)
Definition findLatest (fuel : nat) (options : jsval) (s : Database) : option Database :=
  let '(h, _options) := defaults (heap s) options [queryOptions s] in
  exec fuel (Some (TFindLatest (collectionName (MongooseModel s)) _options)) (set_heap h s).

(** index.js:228-251, the same method on the base prototype. *)
Definition Database_findLatest (fuel : nat) (options : jsval) (s : Database) : option Database :=
  let '(h, _options) := defaults (heap s) options [queryOptions s] in
  exec fuel (Some (TFindLatest (modelName (MongooseModel s)) _options)) (set_heap h s).

(** index.js:260-288.  The thunk hands [options], the caller's argument,
    to findOneAndUpdate, not [_options]. *)
Definition update (fuel : nat) (whereProps saveProps : gmap string jsval) (options : jsval)
    (s : Database) : option Database :=
  let '(h, _options) :=
    defaults (heap s) options
             [Lit {[ "new" := JBool true; "upsert" := JBool true ]}; queryOptions s] in
  exec fuel (Some (TUpdate whereProps saveProps options _options)) (set_heap h s).

(** index.js:296-316 *)
Definition create (fuel : nat) (saveProps : gmap string jsval) (options : jsval) (s : Database)
    : option Database :=
  let '(h, _options) := defaults (heap s) options [queryOptions s] in
  exec fuel (Some (TCreate saveProps _options)) (set_heap h s).

(** animal.js:156-172; [animal] stands for the values [animal.getValue] reads. *)
Definition removeAnimal (fuel : nat) (animal : gmap string jsval) (options : jsval) (s : Database)
    : option Database :=
  let '(h, _options) := defaults (heap s) options [queryOptions s] in
  exec fuel (Some (TRemoveAnimal animal _options)) (set_heap h s).

(** animal.js:190-213 *)
Definition findAnimals (fuel : nat) (props : gmap string jsval) (options : jsval) (s : Database)
    : option Database :=
  let '(h, _options) := defaults (heap s) options [queryOptions s] in
  exec fuel (Some (TFindAnimals props _options)) (set_heap h s).

(** animal.js:223-254; [query] and [animalDocData] are [animal.toQuery()]
    and [animal.toMongooseDoc()]. *)
Definition saveAnimal (fuel : nat) (query animalDocData : gmap string jsval) (options : jsval)
    (s : Database) : option Database :=
  let '(h, _options) := defaults (heap s) options [queryOptions s] in
  exec fuel (Some (TSaveAnimal query animalDocData _options)) (set_heap h s).

(** What Mongoose reads from the options of findOneAndUpdate: absent
    options, or absent keys, mean [upsert: false] and [new: false]. *)
Definition store_upsert (h : JS.heap) (options : jsval) : bool := truthy (get "upsert" (deref h options)).
Definition store_new (h : JS.heap) (options : jsval) : bool := truthy (get "new" (deref h options)).

(** ** The store

    The store driver, the Collection class that registers the middleware
    (core/mongodb/lib/collection.js) and the schema are not among the
    sources.  A collection is the list of its documents. *)

Module Store.

Definition date_le (a b : jsval) : bool :=
  match a, b with
  | JDate y1 m1 d1, JDate y2 m2 d2 =>
      (y1 <? y2)%nat || ((y1 =? y2)%nat && ((m1 <? m2)%nat || ((m1 =? m2)%nat && (d1 <=? d2)%nat)))
  | _, JDate _ _ _ => true
  | _, _ => false
  end.

(** Modelled from the spec: the query of getLatest, which the driver
    evaluates.  Spec section 4.4: "filter none, sort by timestamp
    descending, take one". *)
Fixpoint latest (coll : list (gmap string jsval)) : option (gmap string jsval) :=
  match coll with
  | [] => None
  | d :: coll' =>
      match latest coll' with
      | Some d' => if date_le (get "timestamp" d) (get "timestamp" d') then Some d' else Some d
      | None => Some d
      end
  end.

(** Modelled from the spec: the driver's answer to
    [findOne({}).sort({timestamp: -1})], that is a failure, or the latest
    document, or nothing. *)
Definition respond_latest (coll : list (gmap string jsval)) (failure : option error)
    : option error * result :=
  match failure with
  | Some e => (Some e, Absent)
  | None => (None, from_option Doc Absent (latest coll))
  end.

Definition same_id (a b : gmap string jsval) : bool :=
  bool_decide (get "_id" a = get "_id" b).

(** Modelled from the spec: writing a document, in place when its [_id]
    is stored already (the internal identifier is the store's key). *)
Definition persist (doc : gmap string jsval) (coll : list (gmap string jsval))
    : list (gmap string jsval) :=
  if existsb (same_id doc) coll
  then map (fun d => if same_id doc d then doc else d) coll
  else coll ++ [doc].

(** Modelled from the spec: [new Model(data)], where the store assigns
    the internal identifier of a document that has none. *)
Definition assign_id (new_id : string) (data : gmap string jsval) : gmap string jsval :=
  if truthy (get "_id" data) then data else <["_id" := JId new_id]> data.

(** animal.js:46-58, the post-save middleware, with [this] the saved
    document; [save] is [this.save], and returning stands for [next()].
    [None]: [this._id.toString()] threw. *)
Definition post_save
    (save : gmap string jsval -> list (gmap string jsval) -> option (gmap string jsval * list (gmap string jsval)))
    (this : gmap string jsval) (coll : list (gmap string jsval))
    : option (gmap string jsval * list (gmap string jsval)) :=
  if negb (truthy (get "petId" this)) then
    petId ← toString (get "_id" this);
    save (<["petId" := JStr petId]> this) coll
  else Some (this, coll).

(** Modelled from the spec: [doc.save(cb)], that is the write, then the
    post-save middleware, then [cb].  Spec section 4.5: "A post-save hook
    guarantees every newly created record receives its external identifier
    ... before the record is considered durably saved".  The comment at
    animal.js:47 says of that middleware that it "never gets called";
    [hooks] tells whether the store dispatches it, so that both readings
    can be evaluated.  [None] also when the fuel runs out. *)
Fixpoint doc_save (hooks : bool) (fuel : nat) (doc : gmap string jsval)
    (coll : list (gmap string jsval)) : option (gmap string jsval * list (gmap string jsval)) :=
  match fuel with
  | O => None
  | S fuel' =>
      let coll1 := persist doc coll in
      if hooks then post_save (doc_save hooks fuel') doc coll1
      else Some (doc, coll1)
  end.

(** Modelled from the spec: [model.create(data, cb)] on a store that
    accepts the write; the result is the collection afterwards and what
    [cb] receives. *)
Definition model_create (hooks : bool) (fuel : nat) (new_id : string)
    (data : gmap string jsval) (coll : list (gmap string jsval))
    : option (list (gmap string jsval) * (option error * result)) :=
  '(doc, coll') ← doc_save hooks fuel (assign_id new_id data) coll;
  Some (coll', (None, Doc doc)).

End Store.

(** ** Vocabulary of the statements *)

(** A thunk that returns without calling [exec] when applied. *)
Definition quiet (t : thunk) : Prop :=
  match t with
  | Callable _ body => forall n, body n = []
  | Throwing _ body => forall n, body n = ([], false)
  | _ => True
  end.

(** What applying a quiet thunk does. *)
Definition run_quiet (t : thunk) (s : Database) : Database :=
  match t with
  | Callable name _ | Throwing name _ => emit [Ran name] s
  | _ => run_crud t s
  end.

(** A function that does nothing but be applied. *)
Definition plain_callable (name : string) : thunk := Callable name (fun _ => []).

(** Connected, active, nothing pending. *)
Definition ready (s : Database) : Prop :=
  _adapter s = Adapter.connected /\ _isActive s = true /\ _queue s = [].

(** A run of [exec] calls, one after the other, each made for itself:
    what one throws does not keep the next from being made. *)
Fixpoint execs (fuel : nat) (funcs : list (option thunk)) (s : Database) : option Database :=
  match funcs with
  | [] => Some s
  | f :: funcs' => s' ← exec fuel f s; execs fuel funcs' s'
  end.

(** The trace without the connect attempts: the thunks applied and the
    operations they issued. *)
Definition work (tr : list event) : list event :=
  List.filter (fun e => match e with Connect => false | _ => true end) tr.

(** The callbacks invoked in a trace. *)
Definition calls (evs : list event) : list (jsval * jsval * list arg) :=
  omap (fun e => match e with Call f this args => Some (f, this, args) | _ => None end) evs.

(** A small instance to evaluate on; to its moment every value that is
    not a Date prints as the second of November 2026. *)
Definition example_model : Model :=
  {| newToObject := fun o => <["__v" := JNum 0]> (<["_id" := JId "59a1f0c2e4b0a1b2c3d4e5f6"]> o);
     toMongoQuery := fun o => o;
     collectionName := "prod_animal";
     modelName := "prod_animal";
     momentOther := fun _ => "11.2.2026" |}.

Definition example_queryOptions : gmap string jsval :=
  {[ "complete" := JFun "AnimalDatabase.complete"; "isV1Format" := JBool true ]}.

(** Connected and active, with the default query options of
    animal.js:35-41 at reference 1 and a caller's empty options object at
    reference 2. *)
Definition example_db : Database :=
  {| heap := {[ 1%positive := example_queryOptions; 2%positive := ∅ ]};
     _queue := []; _isActive := true; _adapter := Adapter.connected;
     _config := {[ "queryOptions" := JObj 1%positive ]};
     MongooseModel := example_model; trace := [] |}.

(** [second] does nothing; [first] calls [this.exec(second)] the first
    time it is applied; [again] does so every time. *)
Definition second : thunk := plain_callable "second".
Definition first : thunk :=
  Callable "first" (fun n => match n with O => [Some second] | S _ => [] end).
Definition again : thunk := Callable "again" (fun _ => [Some second]).

Definition pushed (funcs : list (option thunk)) : list thunk := omap (fun f => f) funcs.

(** The seven public operations that take an options object. *)
Inductive operation :=
| OpFindOne (props : gmap string jsval)
| OpFindLatest
| OpUpdate (whereProps saveProps : gmap string jsval)
| OpCreate (saveProps : gmap string jsval)
| OpFindAnimals (props : gmap string jsval)
| OpSaveAnimal (query animalDocData : gmap string jsval)
| OpRemoveAnimal (animal : gmap string jsval).

Definition perform (fuel : nat) (op : operation) (options : jsval) (s : Database)
    : option Database :=
  match op with
  | OpFindOne props => findOne fuel props options s
  | OpFindLatest => findLatest fuel options s
  | OpUpdate whereProps saveProps => update fuel whereProps saveProps options s
  | OpCreate saveProps => create fuel saveProps options s
  | OpFindAnimals props => findAnimals fuel props options s
  | OpSaveAnimal query animalDocData => saveAnimal fuel query animalDocData options s
  | OpRemoveAnimal animal => removeAnimal fuel animal options s
  end.


(** A key "resolves to undefined" in an object. *)
Definition unset (k : string) (o : gmap string jsval) : Prop :=
  o !! k = None \/ o !! k = Some JUndefined.

(** The state [update] leaves [example_db] in, for a caller that passes
    the empty options object at reference 2. *)
Definition example_db_updated : Database :=
  default example_db (update 5 {[ "petId" := JStr "abc" ]} {[ "name" := JStr "Rex" ]} (JObj 2%positive) example_db).

(** ** The rest of the three files *)

(** animal.js:60-64, the post-findOneAndUpdate middleware: [doc] is what
    the query returned, possibly null; it is changed in place. *)
Definition post_findOneAndUpdate (doc : option (gmap string jsval)) : option (gmap string jsval) :=
  match doc with
  | Some d =>
      if truthy (get "_id" d)
      then Some (<["petId" := JStr (String_of (get "_id" d))]> d)
      else Some d
  | None => None
  end.



(** *** Prototypes

    A prototype is the table from method names to the functions that
    implement them; a function is named by the file that defines it. *)
Inductive impl := Impl (file method : string).

Global Instance impl_eq_dec : EqDecision impl.
Proof. solve_decision. Defined.

(** [_.extend(object, source)]: every property of [source] is assigned to
    [object], replacing one of the same name. *)
Definition extend (object source : gmap string impl) : gmap string impl := source ∪ object.

(** index.js:39-318 *)
Definition Database_methods : gmap string impl :=
  list_to_map ((fun m => (m, Impl "lib/database/index.js" m)) <$>
    ["_init"; "exec"; "cacheData"; "onDBAdapterConnected"; "isActive"; "start"; "stop";
     "setAdapter"; "getAdapter"; "setConfig"; "getConfig"; "findOne"; "findLatest";
     "update"; "create"]).

(** index.js:320; [debuggable] is [Debuggable.prototype]. *)
Definition Database_prototype (debuggable : gmap string impl) : gmap string impl :=
  extend Database_methods debuggable.

(** timestamped.js:64-95 *)
Definition TimestampedDatabase_methods : gmap string impl :=
  {[ "findLatest" := Impl "timestamped.js" "findLatest" ]}.

(** timestamped.js:97; [base] is the prototype of the Database it requires. *)
Definition TimestampedDatabase_prototype (base : gmap string impl) : gmap string impl :=
  extend TimestampedDatabase_methods base.

(** animal.js:139-265 *)
Definition AnimalDatabase_methods : gmap string impl :=
  list_to_map ((fun m => (m, Impl "animal.js" m)) <$>
    ["removeAnimal"; "findAnimals"; "saveAnimal"; "clear"]).

(** animal.js:267 *)
Definition AnimalDatabase_prototype (base : gmap string impl) : gmap string impl :=
  extend AnimalDatabase_methods base.

(** *** The AnimalDatabase constructor, animal.js:29-44 and 130-136

    [PROD] is [Debuggable.PROD] and [development] is
    [config.DEVELOPMENT_ENV], both outside the sources.  The object
    literal of the defaults, with its nested query options, is built
    before [_.defaults] runs. *)
Definition default_queryOptions : gmap string jsval :=
  {[ "complete" := JFun "AnimalDatabase.complete"; "isV1Format" := JBool true ]}.

Definition AnimalDatabase_defaults (PROD : jsval) (development : bool) (queryOptions : positive)
    : gmap string jsval :=
  {[ "debugLevel" := PROD;
     "debugTag" := JStr "AnimalDatabase: ";
     "collectionNamePrefix" := JStr (if development then "dev_" else "prod_");
     "queryOptions" := JObj queryOptions ]}.

Definition AnimalDatabase (m : Model) (PROD : jsval) (development : bool)
    (h : JS.heap) (options : jsval) : Database :=
  let '(h1, lq) := alloc h default_queryOptions in
  let '(h2, _options) := defaults h1 options [Lit (AnimalDatabase_defaults PROD development lq)] in
  let o := deref h2 (JObj _options) in
  let collection :=
    {| newToObject := newToObject m; toMongoQuery := toMongoQuery m;
       collectionName := (String_of (get "collectionNamePrefix" o) ++ "animal")%string;
       modelName := modelName m; momentOther := momentOther m |} in
  setConfig "queryOptions" (get "queryOptions" o)
    (setConfig "isDevelopment" (get "DEVELOPMENT_ENV" o)
       (new_Database collection h2 ∅)).

(** *** Vocabulary for the operations *)

(** The completion closure of the store request a queued CRUD thunk
    issues when it is applied. *)
Definition closure_of (t : thunk) : option closure :=
  match t with
  | Callable _ _ | Throwing _ _ => None
  | TFindOne _ _options => Some (KFindOne _options)
  | TFindLatest name _options => Some (KGetLatest (KFindLatest name _options))
  | TUpdate _ _ _ _options => Some (KUpdate _options)
  | TCreate _ _options => Some (KCreate _options)
  | TRemoveAnimal _ _options => Some (KRemoveAnimal _options)
  | TFindAnimals _ _options => Some (KStaticFindAnimals (KFindAnimals _options))
  | TSaveAnimal query _ _options =>
      Some (if truthy (get "petId" query)
            then KUpsertUpdated (KSaveAnimal _options)
            else KUpsertCreated (KSaveAnimal _options))
  end.

(** The event by which a thunk shows in the trace: a function by its
    application, a CRUD thunk by its store request. *)
Definition answers (t : thunk) (e : event) : Prop :=
  match t, e with
  | Callable name _, Ran name' | Throwing name _, Ran name' => name = name'
  | Callable _ _, _ | Throwing _ _, _ => False
  | _, Store _ k => closure_of t = Some k
  | _, _ => False
  end.

(** The store request by which a public operation shows in the trace of
    a Database with model [m]. *)
Definition issues (m : Model) (op : operation) (options : jsval) (e : event) : Prop :=
  match op with
  | OpFindOne props =>
      exists _options, e = Store (ReqFindOne props) (KFindOne _options)
  | OpFindLatest =>
      exists _options,
        e = Store (ReqFindOneSorted ∅ "timestamp" (-1))
                  (KGetLatest (KFindLatest (collectionName m) _options))
  | OpUpdate whereProps saveProps =>
      exists _options,
        e = Store (ReqFindOneAndUpdate whereProps
                     (delete "__v" (delete "_id" (newToObject m saveProps))) options)
                  (KUpdate _options)
  | OpCreate saveProps =>
      exists _options, e = Store (ReqSave (newToObject m saveProps)) (KCreate _options)
  | OpFindAnimals props =>
      exists _options,
        e = Store (ReqFind (toMongoQuery m props)) (KStaticFindAnimals (KFindAnimals _options))
  | OpSaveAnimal query animalDocData =>
      exists _options l,
        e = if truthy (get "petId" query)
            then Store (ReqFindOneAndUpdate {[ "petId" := get "petId" query ]} animalDocData (JObj l))
                       (KUpsertUpdated (KSaveAnimal _options))
            else Store (ReqCreate animalDocData) (KUpsertCreated (KSaveAnimal _options))
  | OpRemoveAnimal animal =>
      exists _options,
        e = Store (ReqRemove {[ "_id" := get "petId" animal ]}) (KRemoveAnimal _options)
  end.

(** Operations performed one after the other, each with its options. *)
Fixpoint performs (fuel : nat) (ops : list (operation * jsval)) (s : Database) : option Database :=
  match ops with
  | [] => Some s
  | (op, options) :: ops' => s' ← perform fuel op options s; performs fuel ops' s'
  end.

(** A handler is orderly when it has invoked at most one callback if it
    returned, and none if it threw. *)
Definition orderly (c : completion) : Prop :=
  match c with
  | Returned evs => length (calls evs) <= 1
  | Thrown evs _ => calls evs = []
  end.

(** The thunk a public operation hands to [exec], and the sources of its
    call of [_.defaults]. *)
Definition thunk_of (m : Model) (op : operation) (options : jsval) (_options : positive) : thunk :=
  match op with
  | OpFindOne props => TFindOne props _options
  | OpFindLatest => TFindLatest (collectionName m) _options
  | OpUpdate whereProps saveProps => TUpdate whereProps saveProps options _options
  | OpCreate saveProps => TCreate saveProps _options
  | OpFindAnimals props => TFindAnimals props _options
  | OpSaveAnimal query animalDocData => TSaveAnimal query animalDocData _options
  | OpRemoveAnimal animal => TRemoveAnimal animal _options
  end.

Definition sources_of (op : operation) (s : Database) : list source :=
  match op with
  | OpUpdate _ _ => [Lit {[ "new" := JBool true; "upsert" := JBool true ]}; queryOptions s]
  | _ => [queryOptions s]
  end.

(** The state a public operation leaves a ready Database in. *)
Definition performed (op : operation) (options : jsval) (s : Database) : Database :=
  let D := defaults (heap s) options (sources_of op s) in
  set_queue [] (run_quiet (thunk_of (MongooseModel s) op options (snd D)) (set_heap (fst D) s)).

(** The reference [_options] of that call. *)
Definition options_of (op : operation) (options : jsval) (s : Database) : positive :=
  snd (defaults (heap s) options (sources_of op s)).

(** *** The two [findLatest] methods

    timestamped.js:71-94 defines one, and timestamped.js:97 then copies
    the prototype of the base Database over it, so that an instance runs
    the one of lib/database/index.js:228-251.  They differ in the name
    the cache namespace falls back on. *)
Inductive findLatest_method := OfTimestamped | OfDatabase.

Definition findLatest_of (which : findLatest_method) (fuel : nat) (options : jsval)
    (s : Database) : option Database :=
  match which with
  | OfTimestamped => findLatest fuel options s
  | OfDatabase => Database_findLatest fuel options s
  end.

Definition fallback_name (which : findLatest_method) (m : Model) : string :=
  match which with
  | OfTimestamped => collectionName m
  | OfDatabase => modelName m
  end.


(** *** After a disconnect *)

(** Modelled from the spec: the receiver with which the adapter
    (core/mongodb/lib/adapter.js, not among the sources) calls the
    subscribers of 'disconnected'.  Spec section 3 has a disconnect halt
    the draining, and entries wait until the adapter is connected and the
    Database active; the Database hands itself to its adapter as context
    (index.js:53), and the handler's [this] is taken to be that context,
    the Database. *)
Definition disconnected_event (s : Database) : Database := onDisconnected ThisIsDatabase s.

(** What may happen to a Database and to its adapter, which others can
    reach through [getAdapter()]. *)
Inductive action :=
| CallExec (func : option thunk)     (* db.exec(func) *)
| CallStart                          (* db.start() *)
| CallStop                           (* db.stop() *)
| AdapterConnects                    (* adapter.connect(), with no callback *)
| AdapterSucceeds                    (* a connect attempt succeeds *)
| AdapterCloses                      (* adapter.close() *)
| AdapterDrops.                      (* the link drops: 'disconnected' *)

Definition act (fuel : nat) (a : action) (s : Database) : option Database :=
  match a with
  | CallExec func => exec fuel func s
  | CallStart => start fuel s
  | CallStop => Some (stop s)
  | AdapterConnects => Some (set_adapter (Adapter.connect (_adapter s)) s)
  | AdapterSucceeds => Some (set_adapter (Adapter.onSuccess (_adapter s)) s)
  | AdapterCloses => Some (set_adapter (Adapter.close (_adapter s)) s)
  | AdapterDrops => Some (disconnected_event s)
  end.

Fixpoint run (fuel : nat) (acts : list action) (s : Database) : option Database :=
  match acts with
  | [] => Some s
  | a :: acts' => s' ← act fuel a s; run fuel acts' s'
  end.



(** *** Functions that throw *)

(** A function that throws every time it is applied. *)
Definition thrower (name : string) : thunk := Throwing name (fun _ => ([], true)).

(** ** The queue *)

(** A thunk by cases; the only one that branches is saveAnimal's, on the
    decision of [upsert]. *)
Ltac by_thunk t :=
  destruct t; simpl; try reflexivity;
  match goal with
  | |- context [upsert ?h ?q ?d ?o ?c] => destruct (upsert h q d o c); reflexivity
  end.

Lemma queue_run_quiet t s : _queue (run_quiet t s) = _queue s.
Proof. by_thunk t. Qed.

Lemma adapter_run_quiet t s : _adapter (run_quiet t s) = _adapter s.
Proof. by_thunk t. Qed.

Lemma active_run_quiet t s : _isActive (run_quiet t s) = _isActive s.
Proof. by_thunk t. Qed.

(** A call that ends on anything but a throw has not thrown. *)
Lemma threw_snoc before tr e s :
  trace s = (tr ++ [e])%list ->
  (forall name, e <> Threw name) ->
  threw before s = false.
Proof.
  intros Htr He. unfold threw. rewrite Htr, last_snoc.
  destruct e; try apply andb_false_r. destruct (He name eq_refl).
Qed.

Lemma trace_run_quiet t s :
  exists e, trace (run_quiet t s) = (trace s ++ [e])%list /\ forall name, e <> Threw name.
Proof.
  destruct t; try (eexists; split; [reflexivity|discriminate]).
  cbn [run_quiet run_crud alloc]. unfold upsert.
  cbn [closure_isPlainObject isPlainObject defaults].
  destruct (truthy (get "petId" query)); eexists; (split; [reflexivity|discriminate]).
Qed.

Lemma threw_run_quiet before t s : threw before (run_quiet t s) = false.
Proof.
  destruct (trace_run_quiet t s) as (e & He & Hne).
  exact (threw_snoc before _ e _ He Hne).
Qed.

Lemma apply_quiet ex t s : quiet t -> apply_thunk ex t s = Some (run_quiet t s).
Proof.
  destruct t; simpl; try reflexivity.
  - intros H. rewrite H. reflexivity.
  - intros H. rewrite H. reflexivity.
Qed.

Lemma run_quiet_set_queue t q s : run_quiet t (set_queue q s) = set_queue q (run_quiet t s).
Proof. by_thunk t. Qed.

Lemma foldl_run_quiet_set_queue ts : forall q s,
  foldl (fun s t => run_quiet t s) (set_queue q s) ts
  = set_queue q (foldl (fun s t => run_quiet t s) s ts).
Proof.
  induction ts as [|t ts IH]; intros q s; simpl; [reflexivity|].
  rewrite run_quiet_set_queue. apply IH.
Qed.

Lemma foldl_run_quiet_fields ts : forall s,
  _adapter (foldl (fun s t => run_quiet t s) s ts) = _adapter s
  /\ _isActive (foldl (fun s t => run_quiet t s) s ts) = _isActive s.
Proof.
  induction ts as [|t ts IH]; intros s; simpl; [split; reflexivity|].
  destruct (IH (run_quiet t s)) as [Ha Hi].
  rewrite Ha, Hi, adapter_run_quiet, active_run_quiet. split; reflexivity.
Qed.

(** Draining a queue of quiet thunks applies each once, head first, and
    leaves the queue empty. *)
Lemma processQueue_quiet ex : forall q fuel s,
  _queue s = q -> Forall quiet q -> length q < fuel ->
  processQueue ex fuel s = Some (set_queue [] (foldl (fun s t => run_quiet t s) s q)).
Proof.
  induction q as [|t q IH]; intros fuel s Hq Hquiet Hfuel.
  - destruct fuel; [simpl in Hfuel; lia|]. simpl. rewrite Hq. simpl.
    destruct s; simpl in *; subst; reflexivity.
  - destruct fuel; [simpl in Hfuel; lia|]. simpl. rewrite Hq.
    inversion Hquiet as [|? ? Ht Hrest]; subst.
    rewrite (apply_quiet ex t s Ht). simpl.
    rewrite threw_run_quiet, queue_run_quiet, Hq. simpl.
    rewrite (IH fuel (set_queue q (run_quiet t s))); [|reflexivity|assumption|simpl in Hfuel; lia].
    rewrite foldl_run_quiet_set_queue. reflexivity.
Qed.

Lemma threw_same before s : trace s = trace before -> threw before s = false.
Proof. intros H. unfold threw. rewrite H, Nat.ltb_irrefl. reflexivity. Qed.

Lemma threw_foldl_run_quiet before ts : forall q s,
  threw before s = false ->
  threw before (set_queue q (foldl (fun s t => run_quiet t s) s ts)) = false.
Proof.
  induction ts as [|t ts IH]; intros q s H; [exact H|].
  simpl. apply IH, threw_run_quiet.
Qed.

Lemma exec_blocked fuel func s :
  Adapter.isConnected (_adapter s) && isActive s = false ->
  exec (S fuel) func s
  = Some (if Adapter.isClosed (_adapter s)
          then emit [Connect] (set_adapter (Adapter.connect (_adapter s)) (enqueue func s))
          else enqueue func s).
Proof.
  intros H. cbn [exec].
  assert (Ha : _adapter (enqueue func s) = _adapter s) by (destruct func; reflexivity).
  assert (Hi : isActive (enqueue func s) = isActive s) by (destruct func; reflexivity).
  rewrite Ha, Hi, H. destruct (Adapter.isClosed (_adapter s)); reflexivity.
Qed.

Lemma exec_ready_quiet fuel t s :
  ready s -> quiet t ->
  exec (S (S (S fuel))) (Some t) s = Some (set_queue [] (run_quiet t s)).
Proof.
  intros (Ha & Hi & Hq) Ht.
  change (exec (S (S (S fuel))) (Some t) s)
    with (if Adapter.isConnected (_adapter s) && _isActive s
          then processQueue (exec (S (S fuel))) (S (S fuel)) (set_queue (_queue s ++ [t]) s)
          else if Adapter.isClosed (_adapter s)
               then Some (emit [Connect] (set_adapter (Adapter.connect (_adapter s)) (set_queue (_queue s ++ [t]) s)))
               else Some (set_queue (_queue s ++ [t]) s)).
  rewrite Ha, Hi, Hq. simpl app. cbn [Adapter.isConnected andb].
  rewrite (processQueue_quiet _ [t]); [|reflexivity|repeat constructor; assumption|simpl; lia].
  simpl. rewrite run_quiet_set_queue. destruct (run_quiet t s); reflexivity.
Qed.

Lemma trace_foldl_plain names : forall s,
  trace (foldl (fun s t => run_quiet t s) s (map plain_callable names))
  = (trace s ++ map Ran names)%list.
Proof.
  induction names as [|n names IH]; intros s; simpl.
  - by rewrite app_nil_r.
  - rewrite IH. simpl. by rewrite <- app_assoc.
Qed.

Lemma execs_before_connect fuel names : forall s,
  _adapter s = Adapter.connecting ->
  execs (S fuel) (map (fun n => Some (plain_callable n)) names) s
  = Some (set_queue (_queue s ++ map plain_callable names) s).
Proof.
  induction names as [|n names IH]; intros s Ha.
  - simpl. rewrite app_nil_r. destruct s; reflexivity.
  - cbn [map execs]. rewrite exec_blocked by (rewrite Ha; reflexivity).
    rewrite Ha. cbn [Adapter.isClosed mbind option_bind].
    rewrite IH by exact Ha. simpl. rewrite <- app_assoc. reflexivity.
Qed.

(** The part of the ordering property that holds: functions that do not
    call [exec] themselves, handed to [exec] while the connect attempt of
    the constructor is under way, are all applied once the connect
    succeeds, each once and in the order of the calls. *)
Lemma exec_fifo_after_connect m h config names fuel :
  length names + 2 < fuel ->
  exists s1 s2,
    execs fuel (map (fun n => Some (plain_callable n)) names) (new_Database m h config) = Some s1
    /\ trace s1 = [Connect] /\ _queue s1 = map plain_callable names
    /\ onConnectSuccess fuel s1 = Some s2
    /\ trace s2 = ([Connect] ++ map Ran names ++ [Ran "update queue"])%list
    /\ _queue s2 = [].
Proof.
  intros Hfuel. destruct fuel as [|fuel]; [lia|].
  eexists. eexists. split; [apply execs_before_connect; reflexivity|].
  split; [reflexivity|]. split; [reflexivity|].
  unfold onConnectSuccess, start.
  destruct fuel as [|fuel]; [lia|].
  set (s1 := set_queue _ _).
  change (exec (S (S fuel)) None (set_isActive true (set_adapter (Adapter.onSuccess (_adapter s1)) s1)))
    with (processQueue (exec (S fuel)) (S fuel) (set_isActive true (set_adapter Adapter.connected s1))).
  rewrite (processQueue_quiet _ (map plain_callable names)).
  - cbn [mbind option_bind].
    rewrite threw_foldl_run_quiet by (apply threw_same; reflexivity).
    destruct fuel as [|fuel]; [lia|].
    rewrite exec_ready_quiet.
    + split; [reflexivity|]. split; [|reflexivity].
      cbn [run_quiet update_queue trace set_queue emit].
      rewrite trace_foldl_plain. simpl. reflexivity.
    + destruct (foldl_run_quiet_fields (map plain_callable names)
                  (set_isActive true (set_adapter Adapter.connected s1))) as [Ha Hi].
      split; [exact Ha|]. split; [exact Hi|reflexivity].
    + intros n. reflexivity.
  - reflexivity.
  - apply Forall_forall. intros t Ht. apply list_elem_of_In, in_map_iff in Ht.
    destruct Ht as (n & <- & _). intros k. reflexivity.
  - rewrite length_map. lia.
Qed.

(** A function that calls [exec] every time it is applied is applied
    again by the nested drain, which finds it still at the head of the
    queue: the recursion never ends. *)
Lemma exec_reentrant_never_returns : forall fuel name t q func s,
  _adapter s = Adapter.connected -> _isActive s = true ->
  _queue s = Callable name (fun _ => [Some t]) :: q ->
  exec fuel func s = None.
Proof.
  induction fuel as [|fuel IH]; intros name t q func s Ha Hi Hq; [reflexivity|].
  change (exec (S fuel) func s)
    with (if Adapter.isConnected (_adapter (enqueue func s)) && isActive (enqueue func s)
          then processQueue (exec fuel) fuel (enqueue func s)
          else if Adapter.isClosed (_adapter (enqueue func s))
               then Some (emit [Connect] (set_adapter (Adapter.connect (_adapter (enqueue func s))) (enqueue func s)))
               else Some (enqueue func s)).
  assert (Ha' : _adapter (enqueue func s) = Adapter.connected) by (destruct func; exact Ha).
  assert (Hi' : isActive (enqueue func s) = true) by (destruct func; exact Hi).
  assert (Hq' : exists q', _queue (enqueue func s) = Callable name (fun _ => [Some t]) :: q').
  { destruct func; simpl; rewrite Hq; eauto. }
  destruct Hq' as [q' Hq'].
  rewrite Ha', Hi'. cbn [Adapter.isConnected andb].
  destruct fuel as [|fuel']; [reflexivity|].
  cbn [processQueue]. rewrite Hq'. cbn [apply_thunk call_execs].
  rewrite (IH name t q' (Some t) (emit [Ran name] (enqueue func s))); [reflexivity| | |].
  - exact Ha'.
  - exact Hi'.
  - exact Hq'.
Qed.

Lemma exec_again_never_returns fuel s :
  ready s -> exec fuel (Some again) s = None.
Proof.
  intros (Ha & Hi & Hq). destruct fuel as [|fuel]; [reflexivity|].
  change (exec (S fuel) (Some again) s)
    with (if Adapter.isConnected (_adapter s) && _isActive s
          then processQueue (exec fuel) fuel (set_queue (_queue s ++ [again]) s)
          else if Adapter.isClosed (_adapter s)
               then Some (emit [Connect] (set_adapter (Adapter.connect (_adapter s)) (set_queue (_queue s ++ [again]) s)))
               else Some (set_queue (_queue s ++ [again]) s)).
  rewrite Ha, Hi, Hq. cbn [Adapter.isConnected andb app].
  destruct fuel as [|fuel]; [reflexivity|].
  cbn [processQueue set_queue _queue again apply_thunk call_execs].
  rewrite (exec_reentrant_never_returns (S fuel) "again" second [] (Some second)); [reflexivity| | |].
  - exact Ha.
  - exact Hi.
  - reflexivity.
Qed.

(** C1, at the input where it fails: on a connected and active Database
    with an empty queue, [exec(first)], where [first] calls
    [this.exec(second)] the first time it runs, applies [first] twice and
    then [second]; the claim has every function applied exactly once. *)
Theorem exec_reentrant_applies_head_twice :
  exists s', exec 6 (Some first) example_db = Some s'
    /\ trace s' = [Ran "first"; Ran "first"; Ran "second"]
    /\ _queue s' = [].
Proof.
  eexists. split; [vm_compute; reflexivity|]. split; reflexivity.
Qed.

(** ** Disconnects *)

Lemma work_app a b : work (a ++ b) = (work a ++ work b)%list.
Proof. unfold work. apply List.filter_app. Qed.

Lemma exec_blocked_effect fuel func s :
  Adapter.isConnected (_adapter s) && isActive s = false ->
  exists s', exec (S fuel) func s = Some s'
    /\ _queue s' = _queue (enqueue func s)
    /\ work (trace s') = work (trace s)
    /\ Adapter.isConnected (_adapter s') && isActive s' = false
    /\ heap s' = heap s.
Proof.
  intros H. rewrite exec_blocked by exact H.
  eexists. split; [reflexivity|].
  destruct (_adapter s) eqn:Ha; cbn [Adapter.isClosed];
    destruct func; simpl; rewrite ?Ha, ?work_app, ?app_nil_r; simpl;
    repeat split; try reflexivity; exact H.
Qed.

Lemma execs_blocked fuel : forall funcs s,
  Adapter.isConnected (_adapter s) && isActive s = false ->
  exists s', execs (S fuel) funcs s = Some s'
    /\ _queue s' = (_queue s ++ pushed funcs)%list
    /\ work (trace s') = work (trace s)
    /\ Adapter.isConnected (_adapter s') && isActive s' = false.
Proof.
  induction funcs as [|f funcs IH]; intros s Hc.
  - exists s. simpl. rewrite app_nil_r. auto.
  - destruct (exec_blocked_effect fuel f s Hc) as (s1 & E & Hq & Hw & Hc1 & _).
    destruct (IH s1 Hc1) as (s2 & E2 & Hq2 & Hw2 & Hc2).
    exists s2. cbn [execs]. rewrite E. cbn [mbind option_bind].
    split; [exact E2|]. split; [|split; [congruence|exact Hc2]].
    rewrite Hq2, Hq. destruct f; simpl; [rewrite <- app_assoc|]; reflexivity.
Qed.

(** [exec] applies a queue entry only while the adapter is connected and
    the Database is active. *)
Lemma exec_gate fuel func s s' :
  exec fuel func s = Some s' -> work (trace s') <> work (trace s) ->
  Adapter.isConnected (_adapter s) = true /\ isActive s = true.
Proof.
  intros E Hw.
  destruct (Adapter.isConnected (_adapter s) && isActive s) eqn:G.
  - apply andb_prop in G. exact G.
  - destruct fuel as [|fuel]; [discriminate|].
    destruct (exec_blocked_effect fuel func s G) as (s1 & E1 & _ & Hw1 & _).
    rewrite E in E1. injection E1 as ->. contradiction.
Qed.









(** Were the handler called with the adapter as its [this], as an event
    emitter of Node calls its listeners, the assignment would land on the
    adapter: the Database would stay active, and the first [exec] after
    the adapter is connected again would drain the queue with no
    [start()]. *)
Lemma disconnect_with_adapter_as_receiver_keeps_active :
  let s := set_queue [second] example_db in
  let s1 := onDisconnected ThisIsAdapter s in
  isActive s1 = true
  /\ exists s2,
       run 4 [AdapterCloses; AdapterConnects; AdapterSucceeds; CallExec None] s1 = Some s2
       /\ trace s2 = [Ran "second"]
       /\ _queue s2 = [].
Proof. cbv zeta. split; [reflexivity|]. eexists. split; [vm_compute; reflexivity|]. split; reflexivity. Qed.

(** Once the adapter is connected again and [start()] is called, the
    entries that waited are applied, in the order they were queued. *)
Lemma queue_drains_after_reconnect_and_start :
  let s := set_queue [second] example_db in
  exists s2,
    run 8 [CallStop; CallExec (Some first); CallStart; AdapterSucceeds; CallExec None]
        (disconnected_event s) = Some s2
    /\ work (trace s2) = [Ran "second"; Ran "first"; Ran "first"; Ran "second"]
    /\ _queue s2 = [].
Proof. cbv zeta. eexists. split; [vm_compute; reflexivity|]. split; reflexivity. Qed.

(** ** [_.defaults] *)

Lemma defaults1_lookup dst src k :
  defaults1 dst src !! k = defaults_key (dst !! k) (src !! k).
Proof. unfold defaults1. rewrite lookup_merge. destruct (dst !! k), (src !! k); reflexivity. Qed.

(** A key the destination defines is never overwritten. *)
Lemma defaults_obj_keeps h srcs : forall o k v,
  o !! k = Some v -> v <> JUndefined -> defaults_obj h o srcs !! k = Some v.
Proof.
  unfold defaults_obj. induction srcs as [|src srcs IH]; intros o k v Hk Hv; simpl; [exact Hk|].
  apply IH; [|exact Hv]. rewrite defaults1_lookup, Hk.
  destruct v; try reflexivity; [contradiction | destruct (source_obj h src !! k); reflexivity ..].
Qed.

(** A source that lacks the key leaves it as it is. *)
Lemma defaults1_skip dst src k : src !! k = None -> defaults1 dst src !! k = dst !! k.
Proof. intros H. rewrite defaults1_lookup, H. destruct (dst !! k) as [[]|]; reflexivity. Qed.

(** A key that resolves to undefined takes the value of the source. *)
Lemma defaults1_fills dst src k v :
  unset k dst -> src !! k = Some v -> defaults1 dst src !! k = Some v.
Proof. intros [H|H] Hs; rewrite defaults1_lookup, H, Hs; reflexivity. Qed.

(** The first source that has the key decides it. *)
Lemma defaults_obj_first_fills h o src srcs k v :
  unset k o -> source_obj h src !! k = Some v -> v <> JUndefined ->
  defaults_obj h o (src :: srcs) !! k = Some v.
Proof.
  intros Hu Hs Hv.
  change (defaults_obj h o (src :: srcs))
    with (defaults_obj h (defaults1 o (source_obj h src)) srcs).
  apply defaults_obj_keeps; [|exact Hv]. apply defaults1_fills; assumption.
Qed.


(** ** The heap under [exec] *)

Lemma heap_alloc_twice (h : gmap positive (gmap string jsval)) l x y :
  h !! l = None -> h ⊆ <[l := x]> (<[l := y]> h).
Proof. intros H. rewrite insert_insert_eq. by apply insert_subseteq. Qed.

Lemma heap_run_crud t s : heap s ⊆ heap (run_crud t s).
Proof.
  assert (Hfresh : heap s !! fresh (dom (heap s)) = None).
  { apply not_elem_of_dom, is_fresh. }
  destruct t; simpl; try reflexivity.
  - apply heap_alloc_twice, Hfresh.
  - unfold upsert. cbn [closure_isPlainObject isPlainObject defaults].
    destruct (truthy (get "petId" query)); cbn [set_heap emit heap];
      apply heap_alloc_twice, Hfresh.
Qed.

Lemma heap_calls (ex : option thunk -> Database -> option Database) :
  (forall f s s', ex f s = Some s' -> heap s ⊆ heap s') ->
  forall cs s s', call_execs ex cs s = Some s' -> heap s ⊆ heap s'.
Proof.
  intros Hex. induction cs as [|f cs IH]; intros s s' H; simpl in H.
  - injection H as <-. reflexivity.
  - destruct (ex f s) as [s1|] eqn:E; [|discriminate]. simpl in H.
    transitivity (heap s1); [exact (Hex _ _ _ E)|].
    destruct (threw s s1); [injection H as <-; reflexivity|exact (IH _ _ H)].
Qed.

Lemma heap_apply_thunk (ex : option thunk -> Database -> option Database) t :
  (forall f s s', ex f s = Some s' -> heap s ⊆ heap s') ->
  forall s s', apply_thunk ex t s = Some s' -> heap s ⊆ heap s'.
Proof.
  intros Hex s s' H.
  destruct t;
    [ cbn [apply_thunk] in H; exact (heap_calls ex Hex _ _ _ H)
    | cbn [apply_thunk] in H;
      destruct (body (timesRan name (trace s))) as [cs throws];
      destruct (call_execs ex cs (emit [Ran name] s)) as [s1|] eqn:E; [|discriminate];
      simpl in H; injection H as <-;
      pose proof (heap_calls ex Hex _ _ _ E) as Hs;
      destruct (throws && negb (threw s s1)); exact Hs
    | match type of H with
      | apply_thunk _ ?t _ = _ =>
          pose proof (heap_run_crud t s) as Hr;
          change (Some (run_crud t s) = Some s') in H; injection H as <-; exact Hr
      end .. ].
Qed.

Lemma heap_processQueue (ex : option thunk -> Database -> option Database) :
  (forall f s s', ex f s = Some s' -> heap s ⊆ heap s') ->
  forall fuel s s', processQueue ex fuel s = Some s' -> heap s ⊆ heap s'.
Proof.
  intros Hex. induction fuel as [|fuel IH]; intros s s' H; [discriminate|].
  simpl in H. destruct (_queue s) as [|t q]; [injection H as <-; reflexivity|].
  destruct (apply_thunk ex t s) as [s1|] eqn:E; [|discriminate]. simpl in H.
  transitivity (heap s1); [exact (heap_apply_thunk ex t Hex _ _ E)|].
  destruct (threw s s1); [injection H as <-; reflexivity|exact (IH _ _ H)].
Qed.

(** [exec] never writes to an object that exists already: the thunks
    only write to the option objects they allocate themselves. *)
Lemma heap_exec : forall fuel func s s',
  exec fuel func s = Some s' -> heap s ⊆ heap s'.
Proof.
  induction fuel as [|fuel IH]; intros func s s' H; [discriminate|].
  cbn [exec] in H.
  assert (Hh : heap (enqueue func s) = heap s) by (destruct func; reflexivity).
  rewrite <- Hh.
  destruct (Adapter.isConnected _ && isActive _).
  - exact (heap_processQueue (exec fuel) IH _ _ _ H).
  - destruct (Adapter.isClosed _); injection H as <-; reflexivity.
Qed.

(** ** [update] *)

Lemma update_ready fuel whereProps saveProps options s :
  ready s ->
  let D := defaults (heap s) options
             [Lit {[ "new" := JBool true; "upsert" := JBool true ]}; queryOptions s] in
  update (S (S (S fuel))) whereProps saveProps options s
  = Some (set_queue [] (run_quiet (TUpdate whereProps saveProps options (snd D)) (set_heap (fst D) s))).
Proof.
  intros Hr D. unfold update. fold D. destruct D as [h lo]. cbn [fst snd].
  apply exec_ready_quiet; [exact Hr|exact I].
Qed.

(** C3, at the input where it fails: [update(whereProps, saveProps)] with
    the options argument omitted issues findOneAndUpdate with [undefined]
    as its options, which the store reads as [upsert: false, new: false];
    the defaults [upsert: true, new: true] are in [_options], an object the
    store is never given. *)
Theorem update_without_options_reaches_store_bare fuel whereProps saveProps s :
  ready s ->
  exists s' data _options,
    update (S (S (S fuel))) whereProps saveProps JUndefined s = Some s'
    /\ trace s' = (trace s ++ [Store (ReqFindOneAndUpdate whereProps data JUndefined) (KUpdate _options)])%list
    /\ store_upsert (heap s') JUndefined = false
    /\ store_new (heap s') JUndefined = false
    /\ get "upsert" (deref (heap s') (JObj _options)) = JBool true
    /\ get "new" (deref (heap s') (JObj _options)) = JBool true.
Proof.
  intros Hr. rewrite (update_ready fuel whereProps saveProps JUndefined s Hr).
  eexists. eexists. eexists. split; [reflexivity|].
  split; [reflexivity|]. split; [reflexivity|]. split; [reflexivity|].
  cbn [defaults fst snd run_quiet run_crud set_queue set_heap emit heap deref].
  rewrite lookup_insert_eq. cbn [default]. unfold get.
  split.
  - unfold id. erewrite defaults_obj_first_fills; [reflexivity| |reflexivity|discriminate].
    left; apply lookup_empty.
  - unfold id. erewrite defaults_obj_first_fills; [reflexivity| |reflexivity|discriminate].
    left; apply lookup_empty.
Qed.

(** The witness: the example database is ready. *)
Lemma update_without_options_reaches_store_bare_witness :
  exists s' data _options,
    update 3 {[ "petId" := JStr "abc" ]} {[ "name" := JStr "Rex" ]} JUndefined example_db = Some s'
    /\ trace s' = (trace example_db ++
                   [Store (ReqFindOneAndUpdate {[ "petId" := JStr "abc" ]} data JUndefined) (KUpdate _options)])%list
    /\ store_upsert (heap s') JUndefined = false
    /\ store_new (heap s') JUndefined = false
    /\ get "upsert" (deref (heap s') (JObj _options)) = JBool true
    /\ get "new" (deref (heap s') (JObj _options)) = JBool true.
Proof.
  apply (update_without_options_reaches_store_bare 0 {[ "petId" := JStr "abc" ]}
           {[ "name" := JStr "Rex" ]} example_db).
  repeat split; reflexivity.
Defined.

(** The part of C3 that holds: with an options object that leaves [upsert]
    and [new] unset, the same object reaches the store with both set to
    true, because [_.defaults] wrote them into it. *)
Lemma update_with_options_object_upserts fuel whereProps saveProps l o s :
  ready s -> heap s !! l = Some o -> unset "upsert" o -> unset "new" o ->
  exists s' data,
    update (S (S (S fuel))) whereProps saveProps (JObj l) s = Some s'
    /\ trace s' = (trace s ++ [Store (ReqFindOneAndUpdate whereProps data (JObj l)) (KUpdate l)])%list
    /\ store_upsert (heap s') (JObj l) = true
    /\ store_new (heap s') (JObj l) = true.
Proof.
  intros Hr Hl Hu Hn. rewrite (update_ready fuel whereProps saveProps (JObj l) s Hr).
  eexists. eexists. split; [reflexivity|]. split; [reflexivity|].
  unfold store_upsert, store_new.
  cbn [defaults fst snd run_quiet run_crud set_queue set_heap emit heap deref].
  rewrite lookup_insert_eq, Hl. cbn [default]. unfold get.
  split.
  - unfold id.
    rewrite (defaults_obj_first_fills _ _ _ _ "upsert" (JBool true)); [reflexivity|exact Hu|reflexivity|discriminate].
  - unfold id.
    rewrite (defaults_obj_first_fills _ _ _ _ "new" (JBool true)); [reflexivity|exact Hn|reflexivity|discriminate].
Qed.

(** C6: the document [update] hands to findOneAndUpdate has neither
    [_id] nor [__v], whatever the save payload; every other field of the
    hydrated payload is passed on. *)
Theorem update_write_has_no_id_nor_version fuel whereProps saveProps options s :
  ready s ->
  exists s' data _options,
    update (S (S (S fuel))) whereProps saveProps options s = Some s'
    /\ trace s' = (trace s ++ [Store (ReqFindOneAndUpdate whereProps data options) (KUpdate _options)])%list
    /\ data !! "_id" = None
    /\ data !! "__v" = None
    /\ (forall k, k <> "_id" -> k <> "__v" ->
          data !! k = newToObject (MongooseModel s) saveProps !! k).
Proof.
  intros Hr. rewrite (update_ready fuel whereProps saveProps options s Hr).
  eexists. eexists. eexists. split; [reflexivity|].
  split; [reflexivity|]. cbn [MongooseModel set_heap]. split; [|split].
  - rewrite lookup_delete_ne by discriminate. apply lookup_delete_eq.
  - apply lookup_delete_eq.
  - intros k H1 H2. rewrite !lookup_delete_ne by congruence. reflexivity.
Qed.

(** The witness: a payload that carries both fields. *)
Lemma update_write_has_no_id_nor_version_witness :
  exists s' data _options,
    update 3 {[ "petId" := JStr "abc" ]}
           {[ "_id" := JId "59a1f0c2e4b0a1b2c3d4e5f7"; "__v" := JNum 3; "name" := JStr "Rex" ]}
           (JObj 2%positive) example_db = Some s'
    /\ trace s' = (trace example_db ++
                   [Store (ReqFindOneAndUpdate {[ "petId" := JStr "abc" ]} data (JObj 2%positive))
                          (KUpdate _options)])%list
    /\ data !! "_id" = None
    /\ data !! "__v" = None
    /\ (forall k, k <> "_id" -> k <> "__v" ->
          data !! k = newToObject (MongooseModel example_db)
                        {[ "_id" := JId "59a1f0c2e4b0a1b2c3d4e5f7"; "__v" := JNum 3; "name" := JStr "Rex" ]} !! k).
Proof.
  apply (update_write_has_no_id_nor_version 0 {[ "petId" := JStr "abc" ]}
           {[ "_id" := JId "59a1f0c2e4b0a1b2c3d4e5f7"; "__v" := JNum 3; "name" := JStr "Rex" ]}
           (JObj 2%positive) example_db).
  repeat split; reflexivity.
Defined.

(** ** The caller's options object *)

Lemma defaults1_empty o : defaults1 o ∅ = o.
Proof.
  apply map_eq. intros k. rewrite defaults1_lookup, lookup_empty.
  destruct (o !! k) as [[]|]; reflexivity.
Qed.




(** What the caller finds in its object afterwards. *)
Lemma options_after_update_example :
  map_to_list <$> (heap example_db_updated !! 2%positive)
  = Some [("complete", JFun "AnimalDatabase.complete"); ("upsert", JBool true);
          ("isV1Format", JBool true); ("new", JBool true)].
Proof. vm_compute. reflexivity. Qed.

(** ** The domain upsert *)

(** [if (searchProps.petId)], in general. *)
Lemma upsert_by_truthiness h searchProps saveData options callback :
  exists h' _options onComplete,
    upsert h searchProps saveData options callback
    = (h', if truthy (get "petId" searchProps)
           then [Store (ReqFindOneAndUpdate {[ "petId" := get "petId" searchProps ]} saveData (JObj _options))
                       (KUpsertUpdated onComplete)]
           else [Store (ReqCreate saveData) (KUpsertCreated onComplete)]).
Proof.
  unfold upsert.
  destruct (defaults h _ _) as [h1 lo].
  destruct (truthy (get "petId" searchProps)); eauto.
Qed.

(** C2: with a non-empty string [petId] in the search criteria, upsert
    issues one operation, a findOneAndUpdate whose filter is exactly
    [{petId: searchProps.petId}]; with [petId] missing, undefined, null or
    the empty string it issues one operation, a create of [saveData]. *)
Theorem upsert_decides_on_petId h searchProps saveData options callback :
  (forall id, get "petId" searchProps = JStr id -> id <> "" ->
     exists h' _options onComplete,
       upsert h searchProps saveData options callback
       = (h', [Store (ReqFindOneAndUpdate {[ "petId" := JStr id ]} saveData (JObj _options))
                     (KUpsertUpdated onComplete)]))
  /\ (searchProps !! "petId" = None \/ get "petId" searchProps = JUndefined
      \/ get "petId" searchProps = JNull \/ get "petId" searchProps = JStr "" ->
     exists h' onComplete,
       upsert h searchProps saveData options callback
       = (h', [Store (ReqCreate saveData) (KUpsertCreated onComplete)])).
Proof.
  destruct (upsert_by_truthiness h searchProps saveData options callback)
    as (h' & lo & k & E).
  split.
  - intros id Hid Hne. exists h', lo, k. rewrite E, Hid. simpl.
    destruct (String.eqb_spec id ""); [contradiction|reflexivity].
  - intros H. exists h', k. rewrite E.
    assert (Hf : truthy (get "petId" searchProps) = false).
    { destruct H as [H|[H|[H|H]]]; [unfold get|..]; rewrite H; reflexivity. }
    rewrite Hf. reflexivity.
Qed.

(** The witness: the two examples of the spec. *)
Lemma upsert_decides_on_petId_witness :
  (exists h' _options onComplete,
     upsert ∅ {[ "petId" := JStr "abc" ]} {[ "name" := JStr "Rex" ]} (Plain (JFun "done")) (Plain JUndefined)
     = (h', [Store (ReqFindOneAndUpdate {[ "petId" := JStr "abc" ]} {[ "name" := JStr "Rex" ]} (JObj _options))
                   (KUpsertUpdated onComplete)]))
  /\ (exists h' onComplete,
        upsert ∅ ∅ {[ "name" := JStr "New" ]} (Plain (JFun "done")) (Plain JUndefined)
        = (h', [Store (ReqCreate {[ "name" := JStr "New" ]}) (KUpsertCreated onComplete)])).
Proof.
  split.
  - apply (proj1 (upsert_decides_on_petId ∅ {[ "petId" := JStr "abc" ]} {[ "name" := JStr "Rex" ]}
                    (Plain (JFun "done")) (Plain JUndefined)) "abc").
    + reflexivity.
    + discriminate.
  - apply (proj2 (upsert_decides_on_petId ∅ ∅ {[ "name" := JStr "New" ]}
                    (Plain (JFun "done")) (Plain JUndefined))).
    left. reflexivity.
Defined.

(** ** Store errors in the completion handlers *)

(** C5, at the inputs where it fails: when the store reports an error and
    no result, the handler of [create] throws on [savedDoc.toObject] and
    the handler of [findAnimals] throws on [animals.map] as soon as a
    completion callback is configured; in neither case is the callback
    invoked. *)
Theorem store_error_makes_create_and_findAnimals_throw cwd s saveProps props _options e :
  let issued_by_create := [Store (ReqSave (newToObject (MongooseModel s) saveProps)) (KCreate _options)] in
  let after_create := resume cwd s (KCreate _options) (Some e) Absent in
  let after_find := resume cwd s (KStaticFindAnimals (KFindAnimals _options)) (Some e) Absent in
  trace (run_crud (TCreate saveProps _options) s) = (trace s ++ issued_by_create)%list
  /\ after_create
     = Thrown [LogError (DBErrorOf e)] "TypeError: cannot read property toObject of undefined"
  /\ calls (events_of after_create) = []
  /\ (exists l, trace (run_crud (TFindAnimals props _options) s)
        = (trace s ++ [Store (ReqFind (toMongoQuery (MongooseModel s) props))
                             (KStaticFindAnimals (KFindAnimals _options))])%list
        /\ heap (run_crud (TFindAnimals props _options) s) !! l
           = Some {[ "isV1Format" := get "isV1Format" (deref (heap s) (JObj _options)) ]})
  /\ after_find
     = (if truthy (get "complete" (deref (heap s) (JObj _options)))
        then Thrown [LogError e; LogError (DBErrorOf e)]
                    "TypeError: cannot read property map of undefined"
        else Returned [LogError e; LogError (DBErrorOf e)])
  /\ calls (events_of after_find) = [].
Proof.
  cbv zeta. split; [reflexivity|]. split; [reflexivity|]. split; [reflexivity|].
  split.
  { eexists. split; [reflexivity|]. cbn [run_crud alloc static_findAnimals closure_isPlainObject
      isPlainObject defaults fst set_heap emit heap].
    rewrite lookup_insert_eq. f_equal. rewrite lookup_insert_eq. cbn [default].
    unfold defaults_obj. cbn [foldl source_obj]. apply defaults1_empty. }
  cbn [resume]. unfold if_complete.
  destruct (truthy (get "complete" (deref (heap s) (JObj _options)))); split; reflexivity.
Qed.

(** The sibling handlers do hand a store error to the callback: update,
    findOne, findLatest, removeAnimal, and saveAnimal through upsert. *)
Lemma store_error_reaches_callback_elsewhere cwd s name _options complete e :
  get "complete" (deref (heap s) (JObj _options)) = JFun complete ->
  let ctx := context_of s _options in
  resume cwd s (KUpdate _options) (Some e) Absent
    = Returned [LogError (DBErrorOf e); Call (JFun complete) ctx [AVal (JErr (DBErrorOf e)); ADoc ∅]]
  /\ resume cwd s (KFindOne _options) (Some e) Absent
    = Returned [Call (JFun complete) ctx [AVal (JErr (DBErrorOf e)); ADoc ∅]]
  /\ resume cwd s (KGetLatest (KFindLatest name _options)) (Some e) Absent
    = Returned [LogError (DBErrorOf e); Call (JFun complete) (JObj _options) [AVal (JErr (DBErrorOf e))]]
  /\ resume cwd s (KRemoveAnimal _options) (Some e) Absent
    = Returned [Call (JFun complete) (JObj _options)
                  [AVal (JErr (DBErrorOf e)); ADoc {[ "result" := JStr "failure" ]}]]
  /\ resume cwd s (KUpsertUpdated (KSaveAnimal _options)) (Some e) Absent
    = Returned [LogError e; LogError (DBErrorOf e);
                Call (JFun complete) (JObj _options) [AVal (JErr (DBErrorOf e))]]
  /\ resume cwd s (KUpsertCreated (KSaveAnimal _options)) (Some e) Absent
    = Returned [LogError (DBErrorOf e);
                Call (JFun complete) (JObj _options) [AVal (JErr (DBErrorOf e))]].
Proof.
  intros Hc ctx. cbn [resume]. unfold if_complete. rewrite Hc.
  repeat split; reflexivity.
Qed.

(** ** [findLatest] *)

Lemma findLatest_ready fuel options s :
  ready s ->
  let D := defaults (heap s) options [queryOptions s] in
  findLatest (S (S (S fuel))) options s
  = Some (set_queue [] (run_quiet (TFindLatest (collectionName (MongooseModel s)) (snd D))
                                  (set_heap (fst D) s))).
Proof.
  intros Hr D. unfold findLatest. fold D. destruct D as [h lo]. cbn [fst snd].
  apply exec_ready_quiet; [exact Hr|exact I].
Qed.

(** Whatever the handler of findLatest is given with no document, it
    calls back with an error as the only argument, or not at all. *)
Lemma findLatest_no_doc_calls cwd s name _options err :
  forall f this args,
    In (f, this, args)
       (calls (events_of (resume cwd s (KGetLatest (KFindLatest name _options)) err Absent))) ->
    exists e, args = [AVal (JErr e)].
Proof.
  intros f this args.
  destruct err as [e|]; cbn [resume result_truthy negb]; unfold if_complete, call_user;
    set (c := get "complete" (deref (heap s) (JObj _options)));
    destruct (truthy c), (isFunction c); simpl;
    intros H; try contradiction; destruct H as [[= <- <- <-]|[]]; eauto.
Qed.

Lemma findLatest_of_ready which fuel options s :
  ready s ->
  let D := defaults (heap s) options [queryOptions s] in
  findLatest_of which (S (S (S fuel))) options s
  = Some (set_queue [] (run_quiet (TFindLatest (fallback_name which (MongooseModel s)) (snd D))
                                  (set_heap (fst D) s))).
Proof.
  intros Hr D. destruct which; cbn [findLatest_of fallback_name];
    [apply findLatest_ready; exact Hr|].
  unfold Database_findLatest. fold D. destruct D as [h lo]. cbn [fst snd].
  apply exec_ready_quiet; [exact Hr|exact I].
Qed.

(** C7: on an empty collection the store answers findLatest with a
    failure or with no document; either way the completion callback in
    force (the caller's, or else the configured one) is invoked, once,
    with an error as its only argument and no result.  This holds of the
    findLatest timestamped.js defines and of the one of
    lib/database/index.js that replaces it on the prototype. *)
Theorem findLatest_on_empty_collection_is_error fuel cwd which options failure s complete :
  let D := defaults (heap s) options [queryOptions s] in
  let _options := snd D in
  let k := KGetLatest (KFindLatest (fallback_name which (MongooseModel s)) _options) in
  let e := DBErrorOf (default (Error "Model collection is empty()") failure) in
  ready s ->
  get "complete" (deref (fst D) (JObj _options)) = JFun complete ->
  exists s',
    findLatest_of which (S (S (S fuel))) options s = Some s'
    /\ trace s' = (trace s ++ [Store (ReqFindOneSorted ∅ "timestamp" (-1)) k])%list
    /\ resume cwd s' k (fst (Store.respond_latest [] failure))
                       (snd (Store.respond_latest [] failure))
       = Returned [LogError e; Call (JFun complete) (JObj _options) [AVal (JErr e)]].
Proof.
  intros D _options k e Hr Hc.
  rewrite (findLatest_of_ready which fuel options s Hr). fold D. fold _options.
  eexists. split; [reflexivity|]. split; [reflexivity|].
  subst k e.
  destruct failure as [err|];
    cbn [Store.respond_latest Store.latest from_option fst snd resume result_truthy negb
         default];
    unfold if_complete;
    cbn [set_queue run_quiet run_crud emit set_heap heap getLatest];
    rewrite Hc; reflexivity.
Qed.

(** The witness: the example database and a caller whose options object,
    at reference 2, is empty, so that the configured callback is in
    force; the method is the one an instance runs. *)
Lemma findLatest_on_empty_collection_is_error_witness :
  let D := defaults (heap example_db) (JObj 2%positive) [queryOptions example_db] in
  let _options := snd D in
  let k := KGetLatest (KFindLatest (fallback_name OfDatabase (MongooseModel example_db)) _options) in
  let e := DBErrorOf (default (Error "Model collection is empty()") None) in
  exists s',
    findLatest_of OfDatabase 3 (JObj 2%positive) example_db = Some s'
    /\ trace s' = (trace example_db ++ [Store (ReqFindOneSorted ∅ "timestamp" (-1)) k])%list
    /\ resume "/srv/api" s' k (fst (Store.respond_latest [] None))
                              (snd (Store.respond_latest [] None))
       = Returned [LogError e;
                   Call (JFun "AnimalDatabase.complete") (JObj _options) [AVal (JErr e)]].
Proof.
  apply (findLatest_on_empty_collection_is_error 0 "/srv/api" OfDatabase (JObj 2%positive) None
           example_db "AnimalDatabase.complete").
  - repeat split; reflexivity.
  - vm_compute. reflexivity.
Defined.






(** ** Creating through upsert *)

Lemma existsb_same_id_fresh record coll :
  (forall d, In d coll -> get "_id" d <> get "_id" record) ->
  existsb (Store.same_id record) coll = false.
Proof.
  intros H. induction coll as [|d coll IH]; [reflexivity|]. simpl.
  rewrite IH by (intros d' Hd'; apply H; right; exact Hd').
  unfold Store.same_id. rewrite bool_decide_eq_false_2; [reflexivity|].
  intros E. apply (H d); [left; reflexivity|]. symmetry. exact E.
Qed.

Lemma replace_same_id_fresh record coll :
  (forall d, In d coll -> get "_id" d <> get "_id" record) ->
  map (fun d => if Store.same_id record d then record else d) coll = coll.
Proof.
  intros H. induction coll as [|d coll IH]; [reflexivity|]. simpl.
  rewrite IH by (intros d' Hd'; apply H; right; exact Hd').
  unfold Store.same_id. rewrite bool_decide_eq_false_2; [reflexivity|].
  intros E. apply (H d); [left; reflexivity|]. symmetry. exact E.
Qed.

Lemma persist_fresh record coll :
  (forall d, In d coll -> get "_id" d <> get "_id" record) ->
  Store.persist record coll = (coll ++ [record])%list.
Proof.
  intros H. unfold Store.persist. rewrite existsb_same_id_fresh by exact H. reflexivity.
Qed.

Lemma persist_last record old coll :
  (forall d, In d coll -> get "_id" d <> get "_id" record) ->
  get "_id" record = get "_id" old ->
  Store.persist record (coll ++ [old]) = (coll ++ [record])%list.
Proof.
  intros H E. unfold Store.persist.
  assert (Hsame : Store.same_id record old = true).
  { unfold Store.same_id. apply bool_decide_eq_true_2. exact E. }
  rewrite existsb_app. cbn [existsb]. rewrite Hsame, orb_true_l, orb_true_r.
  rewrite map_app. cbn [map]. rewrite Hsame.
  rewrite replace_same_id_fresh by exact H. reflexivity.
Qed.

(** The middleware on a document that has its [petId]: [next()] at once. *)
Lemma doc_save_keeps fuel doc coll :
  truthy (get "petId" doc) = true ->
  Store.doc_save true (S fuel) doc coll = Some (doc, Store.persist doc coll).
Proof. intros H. cbn [Store.doc_save]. unfold Store.post_save. rewrite H. reflexivity. Qed.

(** The middleware on a document without one: assign it and save again. *)
Lemma doc_save_assigns fuel doc coll petId :
  truthy (get "petId" doc) = false ->
  toString (get "_id" doc) = Some petId ->
  Store.doc_save true (S fuel) doc coll
  = Store.doc_save true fuel (<["petId" := JStr petId]> doc) (Store.persist doc coll).
Proof.
  intros H Hid. cbn [Store.doc_save]. unfold Store.post_save. rewrite H, Hid. reflexivity.
Qed.



(** Save data that bring an [_id] of their own are covered: the record
    keeps that [_id] and gets its string form for [petId]. *)
Lemma upsert_create_with_supplied_id :
  let saveData : gmap string jsval :=
    {[ "_id" := JId "59a1f0c2e4b0a1b2c3d4e5f7"; "name" := JStr "New" ]} in
  let record := <["petId" := JStr "59a1f0c2e4b0a1b2c3d4e5f7"]> saveData in
  Store.model_create true 2 "59a1f0c2e4b0a1b2c3d4e5f6" saveData []
  = Some ([record], (None, Doc record)).
Proof. vm_compute. reflexivity. Qed.


(** Were the middleware never dispatched, as the comment at animal.js:47
    has it, the record would be reported without any [petId]. *)
Lemma upsert_create_without_hook_has_no_petId :
  let record : gmap string jsval :=
    <["_id" := JId "59a1f0c2e4b0a1b2c3d4e5f6"]> {[ "name" := JStr "New" ]} in
  Store.model_create false 2 "59a1f0c2e4b0a1b2c3d4e5f6" {[ "name" := JStr "New" ]} []
  = Some ([record], (None, Doc record))
  /\ get "petId" record = JUndefined.
Proof. split; vm_compute; reflexivity. Qed.

(** ** More on the queue *)

Lemma run_quiet_emits t s :
  exists e, trace (run_quiet t s) = (trace s ++ [e])%list /\ answers t e.
Proof.
  destruct t; try (eexists; split; reflexivity).
  cbn [run_quiet run_crud alloc]. unfold upsert.
  cbn [closure_isPlainObject isPlainObject defaults answers closure_of].
  destruct (truthy (get "petId" query)); eexists; split; reflexivity.
Qed.

Lemma trace_foldl_run_quiet ts : forall s,
  exists evs,
    trace (foldl (fun s t => run_quiet t s) s ts) = (trace s ++ evs)%list
    /\ Forall2 answers ts evs.
Proof.
  induction ts as [|t ts IH]; intros s.
  - exists []. simpl. rewrite app_nil_r. split; [reflexivity|constructor].
  - destruct (run_quiet_emits t s) as (e & He & Ha).
    destruct (IH (run_quiet t s)) as (evs & Hevs & Hall).
    exists (e :: evs). cbn [foldl]. rewrite Hevs, He, <- app_assoc.
    split; [reflexivity|constructor; assumption].
Qed.

Lemma execs_while_connecting fuel ts : forall s,
  _adapter s = Adapter.connecting ->
  execs (S fuel) (Some <$> ts) s = Some (set_queue (_queue s ++ ts) s).
Proof.
  induction ts as [|t ts IH]; intros s Ha.
  - simpl. rewrite app_nil_r. destruct s; reflexivity.
  - cbn [fmap list_fmap execs]. rewrite exec_blocked by (rewrite Ha; reflexivity).
    rewrite Ha. cbn [Adapter.isClosed mbind option_bind].
    change (list_fmap thunk (option thunk) Some ts) with (Some <$> ts).
    rewrite IH by exact Ha. simpl. rewrite <- app_assoc. reflexivity.
Qed.

(** X1: thunks that return without calling [exec], that is functions
    that neither call [exec] nor throw and the thunks of the CRUD
    methods, handed to [exec] while the constructor's connect attempt is
    under way, are only queued; when the connect succeeds each shows in
    the trace exactly once, in the order of the [exec] calls, before the
    empty function of onDBAdapterConnected, and the queue is empty. *)
Theorem deferred_thunks_run_in_call_order m h config ts fuel :
  Forall quiet ts ->
  length ts + 2 < fuel ->
  exists s1 s2 evs,
    execs fuel (Some <$> ts) (new_Database m h config) = Some s1
    /\ trace s1 = [Connect]
    /\ _queue s1 = ts
    /\ onConnectSuccess fuel s1 = Some s2
    /\ trace s2 = ([Connect] ++ evs ++ [Ran "update queue"])%list
    /\ Forall2 answers ts evs
    /\ _queue s2 = [].
Proof.
  intros Hq Hfuel. destruct fuel as [|fuel]; [lia|].
  set (s1 := set_queue (_queue (new_Database m h config) ++ ts) (new_Database m h config)).
  destruct (trace_foldl_run_quiet ts (set_isActive true (set_adapter Adapter.connected s1)))
    as (evs & Hevs & Hall).
  exists s1. eexists. exists evs.
  split; [apply execs_while_connecting; reflexivity|].
  split; [reflexivity|]. split; [reflexivity|].
  unfold onConnectSuccess, start.
  destruct fuel as [|fuel]; [lia|].
  change (exec (S (S fuel)) None (set_isActive true (set_adapter (Adapter.onSuccess (_adapter s1)) s1)))
    with (processQueue (exec (S fuel)) (S fuel) (set_isActive true (set_adapter Adapter.connected s1))).
  rewrite (processQueue_quiet _ ts); [|reflexivity|exact Hq|lia].
  cbn [mbind option_bind].
  rewrite threw_foldl_run_quiet by (apply threw_same; reflexivity).
  destruct fuel as [|fuel]; [lia|].
  rewrite exec_ready_quiet.
  - split; [reflexivity|]. split; [|split; [exact Hall|reflexivity]].
    cbn [run_quiet update_queue trace set_queue emit].
    rewrite Hevs. simpl. rewrite <- ?app_assoc. reflexivity.
  - destruct (foldl_run_quiet_fields ts (set_isActive true (set_adapter Adapter.connected s1)))
      as [Ha Hi].
    split; [exact Ha|]. split; [exact Hi|reflexivity].
  - intros n. reflexivity.
Qed.

(** The witness: a function, an update and a saveAnimal without petId. *)
Lemma deferred_thunks_run_in_call_order_witness :
  exists s1 s2 evs,
    execs 6 (Some <$> [plain_callable "f";
                       TUpdate {[ "petId" := JStr "abc" ]} {[ "name" := JStr "Rex" ]} JUndefined 1%positive;
                       TSaveAnimal ∅ {[ "name" := JStr "New" ]} 1%positive])
          (new_Database example_model {[ 1%positive := example_queryOptions ]} ∅) = Some s1
    /\ trace s1 = [Connect]
    /\ _queue s1 = [plain_callable "f";
                    TUpdate {[ "petId" := JStr "abc" ]} {[ "name" := JStr "Rex" ]} JUndefined 1%positive;
                    TSaveAnimal ∅ {[ "name" := JStr "New" ]} 1%positive]
    /\ onConnectSuccess 6 s1 = Some s2
    /\ trace s2 = ([Connect] ++ evs ++ [Ran "update queue"])%list
    /\ Forall2 answers [plain_callable "f";
                        TUpdate {[ "petId" := JStr "abc" ]} {[ "name" := JStr "Rex" ]} JUndefined 1%positive;
                        TSaveAnimal ∅ {[ "name" := JStr "New" ]} 1%positive] evs
    /\ _queue s2 = [].
Proof.
  apply (deferred_thunks_run_in_call_order example_model {[ 1%positive := example_queryOptions ]} ∅
           [plain_callable "f";
            TUpdate {[ "petId" := JStr "abc" ]} {[ "name" := JStr "Rex" ]} JUndefined 1%positive;
            TSaveAnimal ∅ {[ "name" := JStr "New" ]} 1%positive] 6).
  - repeat constructor.
  - simpl. lia.
Defined.

Lemma exec_head_reentrant_never_returns name body :
  (forall n, body n <> []) ->
  forall fuel q func s,
    _adapter s = Adapter.connected -> _isActive s = true ->
    _queue s = Callable name body :: q ->
    exec fuel func s = None.
Proof.
  intros Hbody. induction fuel as [|fuel IH]; intros q func s Ha Hi Hq; [reflexivity|].
  cbn [exec].
  assert (Ha' : _adapter (enqueue func s) = Adapter.connected) by (destruct func; exact Ha).
  assert (Hi' : isActive (enqueue func s) = true) by (destruct func; exact Hi).
  assert (Hq' : exists q', _queue (enqueue func s) = Callable name body :: q').
  { destruct func; simpl; rewrite Hq; eauto. }
  destruct Hq' as [q' Hq'].
  rewrite Ha', Hi'. cbn [Adapter.isConnected andb].
  destruct fuel as [|fuel']; [reflexivity|].
  cbn [processQueue]. rewrite Hq'. cbn [apply_thunk].
  destruct (body (timesRan name (trace (enqueue func s)))) as [|c cs] eqn:E.
  - exfalso. exact (Hbody _ E).
  - cbn [call_execs].
    rewrite (IH q' c (emit [Ran name] (enqueue func s)) Ha' Hi' Hq'). reflexivity.
Qed.

(** X2: a function that calls [this.exec] each time it is applied, with
    a function or with nothing, never returns once [exec] applies it: the
    nested drain finds it at the head of the queue and applies it again. *)
Theorem reentrant_function_never_returns fuel name body s :
  ready s ->
  (forall n, body n <> []) ->
  exec fuel (Some (Callable name body)) s = None.
Proof.
  intros (Ha & Hi & Hq) Hbody. destruct fuel as [|fuel]; [reflexivity|].
  cbn [exec enqueue]. cbn [set_queue _adapter isActive _isActive].
  rewrite Ha, Hi, Hq. cbn [Adapter.isConnected andb app].
  destruct fuel as [|fuel]; [reflexivity|].
  cbn [processQueue set_queue _queue apply_thunk].
  destruct (body _) as [|c cs] eqn:E; [exfalso; exact (Hbody _ E)|].
  cbn [call_execs].
  rewrite (exec_head_reentrant_never_returns name body Hbody (S fuel) [] c); try reflexivity.
  - exact Ha.
  - exact Hi.
Qed.

(** The witness: a function that kicks the queue with [this.exec()]. *)
Lemma reentrant_function_never_returns_witness :
  exec 1000 (Some (Callable "kick" (fun _ => [None]))) example_db = None.
Proof.
  apply (reentrant_function_never_returns 1000 "kick" (fun _ => [None]) example_db).
  - repeat split; reflexivity.
  - intros n. discriminate.
Defined.


(** ** More on the operations *)

Lemma defaults_frame (h : gmap positive (gmap string jsval)) object srcs l o :
  h !! l = Some o -> object <> JObj l ->
  fst (defaults h object srcs) !! l = Some o.
Proof.
  intros Hl Hne.
  assert (Hfresh : fresh (dom h) <> l).
  { intros <-. apply (is_fresh (dom h)). apply elem_of_dom. eauto. }
  destruct object; cbn [defaults fst]; try (rewrite lookup_insert_ne by exact Hfresh; exact Hl).
  rewrite lookup_insert_ne by congruence. exact Hl.
Qed.

(** X4: a public operation changes no object that exists when it is
    called, other than the options object it is given: not the configured
    query options, not the options of an earlier call. *)
Theorem operation_changes_only_its_options fuel op options l o s s' :
  heap s !! l = Some o ->
  options <> JObj l ->
  perform fuel op options s = Some s' ->
  heap s' !! l = Some o.
Proof.
  intros Hl Hne H.
  assert (Hgen : forall t srcs,
            exec fuel (Some t)
                 (set_heap (fst (defaults (heap s) options srcs)) s) = Some s' ->
            heap s' !! l = Some o).
  { intros t srcs E. apply heap_exec in E. cbn [set_heap heap] in E.
    eapply lookup_weaken; [|exact E]. apply defaults_frame; assumption. }
  destruct op; cbn [perform] in H;
    unfold findOne, findLatest, update, create, findAnimals, saveAnimal, removeAnimal in H;
    match type of H with
    | context [defaults ?h ?ob ?srcs] =>
        destruct (defaults h ob srcs) as [h1 lo] eqn:D;
        eapply (Hgen _ srcs); rewrite D; exact H
    end.
Qed.

(** The witness: [update] with the caller's object at reference 2 leaves
    the configured query options at reference 1 as they were. *)
Lemma operation_changes_only_its_options_witness :
  heap example_db_updated !! 1%positive = Some example_queryOptions.
Proof.
  apply (operation_changes_only_its_options 5
           (OpUpdate {[ "petId" := JStr "abc" ]} {[ "name" := JStr "Rex" ]})
           (JObj 2%positive) 1%positive example_queryOptions example_db example_db_updated).
  - reflexivity.
  - discriminate.
  - vm_compute. reflexivity.
Defined.

Lemma ready_after_quiet t h s :
  ready s -> ready (set_queue [] (run_quiet t (set_heap h s))).
Proof.
  intros (Ha & Hi & Hq). split; [|split; [|reflexivity]].
  - cbn [set_queue _adapter]. rewrite adapter_run_quiet. exact Ha.
  - cbn [set_queue _isActive]. rewrite active_run_quiet. exact Hi.
Qed.

Lemma model_run_quiet t s : MongooseModel (run_quiet t s) = MongooseModel s.
Proof. by_thunk t. Qed.

Lemma perform_ready fuel op options s :
  ready s ->
  exists s' e,
    perform (S (S (S fuel))) op options s = Some s'
    /\ trace s' = (trace s ++ [e])%list
    /\ issues (MongooseModel s) op options e
    /\ ready s'
    /\ MongooseModel s' = MongooseModel s.
Proof.
  intros Hr.
  assert (Hgen : forall t h,
            quiet t ->
            (exists e, trace (run_quiet t (set_heap h s)) = (trace s ++ [e])%list
                       /\ issues (MongooseModel s) op options e) ->
            exists s' e,
              exec (S (S (S fuel))) (Some t) (set_heap h s) = Some s'
              /\ trace s' = (trace s ++ [e])%list
              /\ issues (MongooseModel s) op options e
              /\ ready s'
              /\ MongooseModel s' = MongooseModel s).
  { intros t h Hq (e & He & Hi).
    exists (set_queue [] (run_quiet t (set_heap h s))), e.
    split; [apply exec_ready_quiet; [destruct Hr as (? & ? & ?); repeat split; assumption|exact Hq]|].
    split; [exact He|]. split; [exact Hi|].
    split; [apply ready_after_quiet; exact Hr|].
    cbn [set_queue MongooseModel]. rewrite model_run_quiet. reflexivity. }
  destruct op; cbn [perform];
    unfold findOne, findLatest, update, create, findAnimals, saveAnimal, removeAnimal;
    match goal with
    | |- context [defaults ?h ?ob ?srcs] => destruct (defaults h ob srcs) as [h1 lo]
    end;
    (apply Hgen; [exact I|]);
    cbn [run_quiet run_crud set_heap emit trace getLatest alloc static_findAnimals
         issues MongooseModel heap].
  - eexists. split; [reflexivity|]. exists lo. reflexivity.
  - eexists. split; [reflexivity|]. exists lo. reflexivity.
  - eexists. split; [reflexivity|]. exists lo. reflexivity.
  - eexists. split; [reflexivity|]. exists lo. reflexivity.
  - eexists. split; [reflexivity|]. exists lo. reflexivity.
  - unfold upsert; cbn [closure_isPlainObject isPlainObject defaults].
    destruct (truthy (get "petId" query)); cbn [emit trace set_heap].
    + eexists. split; [reflexivity|]. exists lo. eexists. reflexivity.
    + eexists. split; [reflexivity|]. exists lo, 1%positive. reflexivity.
  - eexists. split; [reflexivity|]. exists lo. reflexivity.
Qed.

(** X5: on a connected, active Database with an empty queue, each public
    operation makes exactly one store request, at once, of the kind and
    with the arguments of that operation, and leaves the Database
    connected, active and with an empty queue; so a run of operations
    issues its requests in the order of the calls. *)
Theorem operations_issue_requests_in_call_order fuel ops s :
  ready s ->
  exists s' evs,
    performs (S (S (S fuel))) ops s = Some s'
    /\ trace s' = (trace s ++ evs)%list
    /\ Forall2 (fun '(op, options) e => issues (MongooseModel s) op options e) ops evs
    /\ ready s'.
Proof.
  revert s. induction ops as [|[op options] ops IH]; intros s Hr.
  - exists s, []. simpl. rewrite app_nil_r. repeat split; try constructor; apply Hr.
  - destruct (perform_ready fuel op options s Hr) as (s1 & e & E & Ht & Hi & Hr1 & Hm).
    destruct (IH s1 Hr1) as (s' & evs & E' & Ht' & Hall & Hr').
    exists s', (e :: evs). cbn [performs]. rewrite E. cbn [mbind option_bind].
    split; [exact E'|]. split; [rewrite Ht', Ht, <- app_assoc; reflexivity|].
    split; [|exact Hr']. constructor; [exact Hi|]. rewrite <- Hm. exact Hall.
Qed.

(** The witness: a findOne, an update and a saveAnimal in a row. *)
Lemma operations_issue_requests_in_call_order_witness :
  exists s' evs,
    performs 3 [(OpFindOne {[ "petId" := JStr "abc" ]}, JObj 2%positive);
                (OpUpdate {[ "petId" := JStr "abc" ]} {[ "name" := JStr "Rex" ]}, JUndefined);
                (OpSaveAnimal ∅ {[ "name" := JStr "New" ]}, JObj 2%positive)] example_db = Some s'
    /\ trace s' = (trace example_db ++ evs)%list
    /\ Forall2 (fun '(op, options) e => issues (MongooseModel example_db) op options e)
         [(OpFindOne {[ "petId" := JStr "abc" ]}, JObj 2%positive);
          (OpUpdate {[ "petId" := JStr "abc" ]} {[ "name" := JStr "Rex" ]}, JUndefined);
          (OpSaveAnimal ∅ {[ "name" := JStr "New" ]}, JObj 2%positive)] evs
    /\ ready s'.
Proof.
  apply (operations_issue_requests_in_call_order 0
           [(OpFindOne {[ "petId" := JStr "abc" ]}, JObj 2%positive);
            (OpUpdate {[ "petId" := JStr "abc" ]} {[ "name" := JStr "Rex" ]}, JUndefined);
            (OpSaveAnimal ∅ {[ "name" := JStr "New" ]}, JObj 2%positive)] example_db).
  repeat split; reflexivity.
Defined.

(** ** More on the completion handlers *)

Lemma calls_app a b : calls (a ++ b) = (calls a ++ calls b)%list.
Proof. unfold calls. apply omap_app. Qed.

Lemma orderly_call_user f this args : orderly (call_user f this args).
Proof. unfold call_user. destruct (isFunction f); simpl; [lia|reflexivity]. Qed.

Lemma orderly_if_complete s _options k :
  (forall complete, orderly (k complete)) -> orderly (if_complete s _options k).
Proof. intros H. unfold if_complete. destruct (truthy _); [apply H|simpl; lia]. Qed.

Lemma orderly_after evs c : calls evs = [] -> orderly c -> orderly (after evs c).
Proof.
  intros He Hc. destruct c; simpl in *; rewrite calls_app, He; exact Hc.
Qed.

Lemma calls_log_if err : calls (from_option (fun e => [LogError e]) [] err) = [].
Proof. destruct err; reflexivity. Qed.

(** X6: whatever closure the store or the cache calls back, and with
    whatever error and result, the handler invokes at most one caller's
    callback, and if it throws it has invoked none. *)
Theorem handlers_call_back_at_most_once cwd s k : forall err res,
  orderly (resume cwd s k err res).
Proof.
  induction k; intros err res; cbn [resume].
  - apply orderly_call_user.
  - apply orderly_if_complete. intros c. apply orderly_call_user.
  - apply orderly_after; [apply calls_log_if|].
    apply orderly_if_complete. intros c. apply orderly_call_user.
  - apply orderly_after; [apply calls_log_if|].
    destruct res; try reflexivity;
      apply orderly_if_complete; intros c; apply orderly_call_user.
  - destruct err; [apply IHk|]. destruct (negb _); apply IHk.
  - destruct err, res; try (apply orderly_after; [reflexivity|];
      apply orderly_if_complete; intros c; apply orderly_call_user).
    simpl. lia.
  - apply orderly_if_complete. intros c. apply orderly_call_user.
  - destruct err, res; try reflexivity;
      (apply orderly_after; [apply calls_log_if|]);
      (destruct (closure_truthy k); [|simpl; lia]);
      (destruct k; first [apply orderly_call_user | apply IHk]).
  - destruct (closure_truthy k); [|simpl; lia].
    destruct err, res; cbn; apply IHk.
  - destruct err; [apply orderly_after; [reflexivity|apply IHk]|].
    destruct res; first [reflexivity | apply IHk].
  - apply orderly_after; [apply calls_log_if|].
    apply orderly_if_complete. intros c.
    destruct res; try reflexivity.
    destruct (mapM _ _); [apply orderly_call_user|reflexivity].
  - destruct err, res; try reflexivity;
      try (apply orderly_after; [reflexivity|];
           apply orderly_if_complete; intros c; apply orderly_call_user).
    destruct (render_animal _ _); [|reflexivity].
    apply orderly_if_complete; intros c; apply orderly_call_user.
  - destruct err, res; try reflexivity;
      apply orderly_if_complete; intros c; apply orderly_call_user.
Qed.

Lemma perform_ready_eq fuel op options s :
  ready s -> perform (S (S (S fuel))) op options s = Some (performed op options s).
Proof.
  intros Hr. unfold performed.
  destruct op; cbn [perform sources_of thunk_of];
    unfold findOne, findLatest, update, create, findAnimals, saveAnimal, removeAnimal;
    match goal with
    | |- context [defaults ?h ?ob ?srcs] => destruct (defaults h ob srcs) as [h1 lo]
    end;
    cbn [fst snd];
    (apply exec_ready_quiet;
     [destruct Hr as (? & ? & ?); repeat split; assumption|exact I]).
Qed.

Lemma trace_performed op options s :
  exists e, trace (performed op options s) = (trace s ++ [e])%list
            /\ answers (thunk_of (MongooseModel s) op options (options_of op options s)) e.
Proof.
  unfold performed, options_of.
  destruct (defaults (heap s) options (sources_of op s)) as [h lo]. cbn [fst snd set_queue trace].
  destruct (run_quiet_emits (thunk_of (MongooseModel s) op options lo) (set_heap h s)) as (e & He & Ha).
  exists e. split; [exact He|exact Ha].
Qed.

(** X7: findOne on a ready Database issues one findOne request.  When the
    store answers, the completion callback gets two arguments, and the
    second is always an object: the document with a null error when one
    was found; an empty object with the error 'No results returned' when
    none was; an empty object with the wrapped error on a failure. *)
Theorem findOne_reports_a_miss_as_error fuel cwd props options s complete :
  let s' := performed (OpFindOne props) options s in
  let _options := options_of (OpFindOne props) options s in
  let ctx := context_of s' _options in
  ready s ->
  get "complete" (deref (heap s') (JObj _options)) = JFun complete ->
  findOne (S (S (S fuel))) props options s = Some s'
  /\ trace s' = (trace s ++ [Store (ReqFindOne props) (KFindOne _options)])%list
  /\ (forall doc,
        resume cwd s' (KFindOne _options) None (Doc doc)
        = Returned [Call (JFun complete) ctx [AVal JNull; ADoc doc]])
  /\ resume cwd s' (KFindOne _options) None Absent
     = Returned [Call (JFun complete) ctx
                   [AVal (JErr (DBErrorMsg "No results returned")); ADoc ∅]]
  /\ (forall e,
        resume cwd s' (KFindOne _options) (Some e) Absent
        = Returned [Call (JFun complete) ctx [AVal (JErr (DBErrorOf e)); ADoc ∅]]).
Proof.
  intros s' _options ctx Hr Hc.
  split; [exact (perform_ready_eq fuel (OpFindOne props) options s Hr)|].
  split.
  { subst s' _options. unfold performed, options_of. cbn [sources_of thunk_of].
    destruct (defaults (heap s) options [queryOptions s]) as [h lo]. reflexivity. }
  repeat split; intros; cbn [resume]; unfold if_complete; rewrite Hc; reflexivity.
Qed.

(** The witness: the caller's empty options object takes the configured
    completion callback. *)
Lemma findOne_reports_a_miss_as_error_witness :
  let s' := performed (OpFindOne {[ "petId" := JStr "abc" ]}) (JObj 2%positive) example_db in
  let ctx := context_of s' 2%positive in
  findOne 3 {[ "petId" := JStr "abc" ]} (JObj 2%positive) example_db = Some s'
  /\ trace s' = (trace example_db ++
                 [Store (ReqFindOne {[ "petId" := JStr "abc" ]}) (KFindOne 2%positive)])%list
  /\ (forall doc,
        resume "/srv/api" s' (KFindOne 2%positive) None (Doc doc)
        = Returned [Call (JFun "AnimalDatabase.complete") ctx [AVal JNull; ADoc doc]])
  /\ resume "/srv/api" s' (KFindOne 2%positive) None Absent
     = Returned [Call (JFun "AnimalDatabase.complete") ctx
                   [AVal (JErr (DBErrorMsg "No results returned")); ADoc ∅]]
  /\ (forall e,
        resume "/srv/api" s' (KFindOne 2%positive) (Some e) Absent
        = Returned [Call (JFun "AnimalDatabase.complete") ctx [AVal (JErr (DBErrorOf e)); ADoc ∅]]).
Proof.
  apply (findOne_reports_a_miss_as_error 0 "/srv/api" {[ "petId" := JStr "abc" ]}
           (JObj 2%positive) example_db "AnimalDatabase.complete").
  - repeat split; reflexivity.
  - vm_compute. reflexivity.
Defined.

(** X8: removeAnimal removes by [{_id: petId}].  For every answer of the
    store other than none at all, the completion callback is invoked
    once, with [{result: 'failure'}] and an error when the store failed
    or reported that it removed nothing ([n = 0]), and with
    [{result: 'success'}] and a null error otherwise; the error is not
    logged. *)
Theorem removeAnimal_result_tells_failure fuel cwd animal options s complete :
  let s' := performed (OpRemoveAnimal animal) options s in
  let _options := options_of (OpRemoveAnimal animal) options s in
  ready s ->
  get "complete" (deref (heap s') (JObj _options)) = JFun complete ->
  removeAnimal (S (S (S fuel))) animal options s = Some s'
  /\ trace s' = (trace s ++ [Store (ReqRemove {[ "_id" := get "petId" animal ]})
                                   (KRemoveAnimal _options)])%list
  /\ (forall err res,
        (err, res) <> (None, Absent) ->
        let failed := bool_decide (is_Some err) ||
                      match res with OpInfo (Some O) => true | _ => false end in
        resume cwd s' (KRemoveAnimal _options) err res
        = Returned [Call (JFun complete) (JObj _options)
                      [if failed then AVal (JErr (DBError_or err "Could not delete pet"))
                       else AVal JNull;
                       ADoc {[ "result" := JStr (if failed then "failure" else "success") ]}]]).
Proof.
  intros s' _options Hr Hc.
  split; [exact (perform_ready_eq fuel (OpRemoveAnimal animal) options s Hr)|].
  split.
  { subst s' _options. unfold performed, options_of. cbn [sources_of thunk_of].
    destruct (defaults (heap s) options [queryOptions s]) as [h lo]. reflexivity. }
  intros err res Hne failed.
  destruct err as [e|]; [|destruct res as [|d|ds|[[|n]|]]; [congruence|..]];
    cbn [resume]; unfold if_complete; rewrite Hc; reflexivity.
Qed.

(** The witness: the example database. *)
Lemma removeAnimal_result_tells_failure_witness :
  let s' := performed (OpRemoveAnimal {[ "petId" := JStr "abc" ]}) (JObj 2%positive) example_db in
  removeAnimal 3 {[ "petId" := JStr "abc" ]} (JObj 2%positive) example_db = Some s'
  /\ trace s' = (trace example_db ++
                 [Store (ReqRemove {[ "_id" := get "petId" {[ "petId" := JStr "abc" ]} ]})
                        (KRemoveAnimal 2%positive)])%list
  /\ (forall err res,
        (err, res) <> (None, Absent) ->
        let failed := bool_decide (is_Some err) ||
                      match res with OpInfo (Some O) => true | _ => false end in
        resume "/srv/api" s' (KRemoveAnimal 2%positive) err res
        = Returned [Call (JFun "AnimalDatabase.complete") (JObj 2%positive)
                      [if failed then AVal (JErr (DBError_or err "Could not delete pet"))
                       else AVal JNull;
                       ADoc {[ "result" := JStr (if failed then "failure" else "success") ]}]]).
Proof.
  apply (removeAnimal_result_tells_failure 0 "/srv/api" {[ "petId" := JStr "abc" ]}
           (JObj 2%positive) example_db "AnimalDatabase.complete").
  - repeat split; reflexivity.
  - vm_compute. reflexivity.
Defined.

(** X9: update on a ready Database issues one findOneAndUpdate.  When the
    store answers with neither an error nor a document, which it does on
    a miss without upsert, the completion callback is told of a success
    with an empty object; a document is passed on with a null error; a
    failure is logged and passed on wrapped, with an empty object. *)
Theorem update_reports_a_miss_as_success fuel cwd whereProps saveProps options s complete :
  let s' := performed (OpUpdate whereProps saveProps) options s in
  let _options := options_of (OpUpdate whereProps saveProps) options s in
  let ctx := context_of s' _options in
  ready s ->
  get "complete" (deref (heap s') (JObj _options)) = JFun complete ->
  update (S (S (S fuel))) whereProps saveProps options s = Some s'
  /\ trace s' = (trace s ++
                 [Store (ReqFindOneAndUpdate whereProps
                           (delete "__v" (delete "_id" (newToObject (MongooseModel s) saveProps)))
                           options)
                        (KUpdate _options)])%list
  /\ resume cwd s' (KUpdate _options) None Absent
     = Returned [Call (JFun complete) ctx [AVal JNull; ADoc ∅]]
  /\ (forall doc,
        resume cwd s' (KUpdate _options) None (Doc doc)
        = Returned [Call (JFun complete) ctx [AVal JNull; ADoc doc]])
  /\ (forall e,
        resume cwd s' (KUpdate _options) (Some e) Absent
        = Returned [LogError (DBErrorOf e);
                    Call (JFun complete) ctx [AVal (JErr (DBErrorOf e)); ADoc ∅]]).
Proof.
  intros s' _options ctx Hr Hc.
  split; [exact (perform_ready_eq fuel (OpUpdate whereProps saveProps) options s Hr)|].
  split.
  { subst s' _options. unfold performed, options_of. cbn [sources_of thunk_of].
    destruct (defaults (heap s) options _) as [h lo]. reflexivity. }
  repeat split; intros; cbn [resume]; unfold if_complete; rewrite Hc; reflexivity.
Qed.

(** The witness: update without options on the example database. *)
Lemma update_reports_a_miss_as_success_witness :
  let whereProps : gmap string jsval := {[ "petId" := JStr "abc" ]} in
  let saveProps : gmap string jsval := {[ "name" := JStr "Rex" ]} in
  let s' := performed (OpUpdate whereProps saveProps) JUndefined example_db in
  let _options := options_of (OpUpdate whereProps saveProps) JUndefined example_db in
  let ctx := context_of s' _options in
  update 3 whereProps saveProps JUndefined example_db = Some s'
  /\ trace s' = (trace example_db ++
                 [Store (ReqFindOneAndUpdate whereProps
                           (delete "__v" (delete "_id" (newToObject (MongooseModel example_db) saveProps)))
                           JUndefined)
                        (KUpdate _options)])%list
  /\ resume "/srv/api" s' (KUpdate _options) None Absent
     = Returned [Call (JFun "AnimalDatabase.complete") ctx [AVal JNull; ADoc ∅]]
  /\ (forall doc,
        resume "/srv/api" s' (KUpdate _options) None (Doc doc)
        = Returned [Call (JFun "AnimalDatabase.complete") ctx [AVal JNull; ADoc doc]])
  /\ (forall e,
        resume "/srv/api" s' (KUpdate _options) (Some e) Absent
        = Returned [LogError (DBErrorOf e);
                    Call (JFun "AnimalDatabase.complete") ctx [AVal (JErr (DBErrorOf e)); ADoc ∅]]).
Proof.
  apply (update_reports_a_miss_as_success 0 "/srv/api" {[ "petId" := JStr "abc" ]}
           {[ "name" := JStr "Rex" ]} JUndefined example_db "AnimalDatabase.complete").
  - repeat split; reflexivity.
  - vm_compute. reflexivity.
Defined.

Lemma dom_defaults (h : gmap positive (gmap string jsval)) object srcs l :
  is_Some (h !! l) -> is_Some (fst (defaults h object srcs) !! l).
Proof.
  intros [o Ho]. destruct (decide (object = JObj l)) as [->|Hne].
  - cbn [defaults fst]. rewrite lookup_insert_eq. eauto.
  - rewrite (defaults_frame h object srcs l o Ho Hne). eauto.
Qed.

Lemma defaults_returns_member (h : gmap positive (gmap string jsval)) object srcs :
  is_Some (fst (defaults h object srcs) !! snd (defaults h object srcs)).
Proof.
  destruct object; cbn [defaults fst snd]; rewrite lookup_insert_eq; eauto.
Qed.

(** X10: saveAnimal of an animal that has a petId, on a ready Database,
    issues one findOneAndUpdate filtered by that petId, and its options
    are an object of its own, not the caller's, in which [upsert] and
    [new] are true and [isV1Format] is the caller's or configured value:
    a miss creates the record and the document comes back as written. *)
Theorem saveAnimal_updates_with_upsert fuel query animalDocData options s :
  let s' := performed (OpSaveAnimal query animalDocData) options s in
  let _options := options_of (OpSaveAnimal query animalDocData) options s in
  ready s ->
  truthy (get "petId" query) = true ->
  exists l,
    saveAnimal (S (S (S fuel))) query animalDocData options s = Some s'
    /\ trace s' = (trace s ++
                   [Store (ReqFindOneAndUpdate {[ "petId" := get "petId" query ]} animalDocData (JObj l))
                          (KUpsertUpdated (KSaveAnimal _options))])%list
    /\ heap s !! l = None
    /\ options <> JObj l
    /\ store_upsert (heap s') (JObj l) = true
    /\ store_new (heap s') (JObj l) = true
    /\ get "isV1Format" (deref (heap s') (JObj l))
       = get "isV1Format" (deref (heap s') (JObj _options)).
Proof.
  intros s' _options Hr Hp.
  pose proof (perform_ready_eq fuel (OpSaveAnimal query animalDocData) options s Hr) as E.
  cbn [perform] in E. fold s' in E.
  subst s' _options. unfold performed, options_of in *. cbn [sources_of thunk_of] in *.
  pose proof (defaults_returns_member (heap s) options [queryOptions s]) as Hlo.
  assert (Hdom : forall l, is_Some (heap s !! l) ->
                           is_Some (fst (defaults (heap s) options [queryOptions s]) !! l))
    by (intros l; apply dom_defaults).
  assert (Hopt : forall l, options = JObj l ->
                           is_Some (fst (defaults (heap s) options [queryOptions s]) !! l)).
  { intros l ->. cbn [defaults fst]. rewrite lookup_insert_eq. eauto. }
  destruct (defaults (heap s) options [queryOptions s]) as [h lo]. cbn [fst snd] in *.
  set (l := fresh (dom h)).
  assert (Hl : h !! l = None) by (apply not_elem_of_dom, is_fresh).
  assert (Hne : lo <> l) by (intros ->; rewrite Hl in Hlo; destruct Hlo; discriminate).
  exists l. split; [exact E|].
  cbn [run_quiet run_crud alloc]. fold l. unfold upsert.
  cbn [closure_isPlainObject isPlainObject defaults]. rewrite Hp.
  cbn [set_queue set_heap emit trace heap deref].
  split; [reflexivity|].
  split.
  { destruct (heap s !! l) eqn:Hsl; [|reflexivity].
    destruct (Hdom l) as [o Ho]; [eauto|]. rewrite Hl in Ho. discriminate. }
  split.
  { intros ->. destruct (Hopt l eq_refl) as [o Ho]. rewrite Hl in Ho. discriminate. }
  unfold store_upsert, store_new. cbn [deref].
  rewrite !lookup_insert_eq. cbn [default].
  rewrite !lookup_insert_ne by (intros Heq; apply Hne; symmetry; exact Heq).
  unfold defaults_obj. cbn [foldl source_obj]. unfold get, id.
  assert (Hu : ({[ "upsert" := JBool true; "new" := JBool true ]} : gmap string jsval) !! "upsert"
               = Some (JBool true)) by reflexivity.
  assert (Hn : ({[ "upsert" := JBool true; "new" := JBool true ]} : gmap string jsval) !! "new"
               = Some (JBool true)) by reflexivity.
  assert (Hv : ({[ "upsert" := JBool true; "new" := JBool true ]} : gmap string jsval) !! "isV1Format"
               = None) by reflexivity.
  rewrite !defaults1_lookup, Hu, Hn, Hv.
  rewrite !lookup_singleton_ne by discriminate. rewrite lookup_singleton_eq.
  split; [reflexivity|]. split; [reflexivity|].
  cbn [defaults_key].
  match goal with
  | |- context [match ?v with JUndefined => _ | _ => _ end] => destruct v; reflexivity
  end.
Qed.

(** The witness: the caller's options object at reference 2. *)
Lemma saveAnimal_updates_with_upsert_witness :
  let query : gmap string jsval := {[ "petId" := JStr "abc" ]} in
  let animalDocData : gmap string jsval := {[ "name" := JStr "Rex" ]} in
  let s' := performed (OpSaveAnimal query animalDocData) (JObj 2%positive) example_db in
  let _options := options_of (OpSaveAnimal query animalDocData) (JObj 2%positive) example_db in
  exists l,
    saveAnimal 3 query animalDocData (JObj 2%positive) example_db = Some s'
    /\ trace s' = (trace example_db ++
                   [Store (ReqFindOneAndUpdate {[ "petId" := get "petId" query ]} animalDocData (JObj l))
                          (KUpsertUpdated (KSaveAnimal _options))])%list
    /\ heap example_db !! l = None
    /\ JObj 2%positive <> JObj l
    /\ store_upsert (heap s') (JObj l) = true
    /\ store_new (heap s') (JObj l) = true
    /\ get "isV1Format" (deref (heap s') (JObj l))
       = get "isV1Format" (deref (heap s') (JObj _options)).
Proof.
  apply (saveAnimal_updates_with_upsert 0 {[ "petId" := JStr "abc" ]} {[ "name" := JStr "Rex" ]}
           (JObj 2%positive) example_db).
  - repeat split; reflexivity.
  - reflexivity.
Defined.

(** X11: whichever branch upsert took, when the store answers saveAnimal
    with a document, the animal handed to the completion callback has
    for petId the string form of the document's [_id], whatever [petId]
    the document itself holds; a document without [_id] makes the
    handler throw without calling back. *)
Theorem saveAnimal_reports_id_as_petId cwd s _options animalDoc complete :
  get "complete" (deref (heap s) (JObj _options)) = JFun complete ->
  let isV1 := truthy (get "isV1Format" (deref (heap s) (JObj _options))) in
  let updated := resume cwd s (KUpsertUpdated (KSaveAnimal _options)) None (Doc animalDoc) in
  let created := resume cwd s (KUpsertCreated (KSaveAnimal _options)) None (Doc animalDoc) in
  (forall petId,
     toString (get "_id" animalDoc) = Some petId ->
     updated = Returned [Call (JFun complete) (JObj _options)
                           [AVal JNull; AAnimal (Rendered isV1 (get "props" animalDoc) petId)]]
     /\ created = updated)
  /\ (toString (get "_id" animalDoc) = None ->
      calls (events_of updated) = [] /\ calls (events_of created) = []
      /\ exists w, updated = Thrown [] w /\ created = Thrown [] w).
Proof.
  intros Hc isV1 updated created. subst updated created.
  cbn [resume closure_truthy bool_decide decide_rel andb result_truthy negb
       from_option after app]. unfold render_animal. fold isV1.
  split.
  - intros petId Hid. rewrite Hid. cbn [mbind option_bind].
    unfold if_complete. rewrite Hc. split; reflexivity.
  - intros Hid. rewrite Hid. cbn [mbind option_bind]. repeat split. eexists. split; reflexivity.
Qed.

(** The witness: a document whose petId is not the string form of its
    [_id]. *)
Lemma saveAnimal_reports_id_as_petId_witness :
  let animalDoc : gmap string jsval :=
    {[ "_id" := JId "59a1f0c2e4b0a1b2c3d4e5f6"; "petId" := JStr "xyz" ]} in
  let updated := resume "/srv/api" example_db (KUpsertUpdated (KSaveAnimal 1%positive)) None (Doc animalDoc) in
  let created := resume "/srv/api" example_db (KUpsertCreated (KSaveAnimal 1%positive)) None (Doc animalDoc) in
  updated = Returned [Call (JFun "AnimalDatabase.complete") (JObj 1%positive)
                        [AVal JNull;
                         AAnimal (Rendered true (get "props" animalDoc) "59a1f0c2e4b0a1b2c3d4e5f6")]]
  /\ created = updated.
Proof.
  apply (proj1 (saveAnimal_reports_id_as_petId "/srv/api" example_db 1%positive
                  {[ "_id" := JId "59a1f0c2e4b0a1b2c3d4e5f6"; "petId" := JStr "xyz" ]}
                  "AnimalDatabase.complete" eq_refl) "59a1f0c2e4b0a1b2c3d4e5f6").
  reflexivity.
Defined.

Lemma mapM_render isV1 animals :
  Forall (fun a => toString (get "_id" a) <> None) animals ->
  mapM (render_animal isV1) animals
  = Some ((fun a => Rendered isV1 (get "props" a) (String_of (get "_id" a))) <$> animals).
Proof.
  induction 1 as [|a animals Ha _ IH]; [reflexivity|].
  cbn [mapM fmap list_fmap]. rewrite IH. unfold render_animal.
  destruct (get "_id" a) eqn:E; cbn [toString] in *; try congruence; reflexivity.
Qed.

(** X12: findAnimals on a ready Database issues one find, with the
    translated query.  When the store answers with a list, the completion
    callback gets a null error and one animal per document, in the same
    order, each with the string form of the document's [_id] for petId;
    an empty list is delivered as an empty list, not as an error. *)
Theorem findAnimals_delivers_every_animal fuel cwd props options s complete animals :
  let s' := performed (OpFindAnimals props) options s in
  let _options := options_of (OpFindAnimals props) options s in
  let isV1 := truthy (get "isV1Format" (deref (heap s') (JObj _options))) in
  ready s ->
  get "complete" (deref (heap s') (JObj _options)) = JFun complete ->
  Forall (fun a => toString (get "_id" a) <> None) animals ->
  findAnimals (S (S (S fuel))) props options s = Some s'
  /\ trace s' = (trace s ++
                 [Store (ReqFind (toMongoQuery (MongooseModel s) props))
                        (KStaticFindAnimals (KFindAnimals _options))])%list
  /\ resume cwd s' (KStaticFindAnimals (KFindAnimals _options)) None (Docs animals)
     = Returned [Call (JFun complete) (JObj _options)
                   [AVal JNull;
                    AAnimals ((fun a => Rendered isV1 (get "props" a) (String_of (get "_id" a)))
                                <$> animals)]].
Proof.
  intros s' _options isV1 Hr Hc Hids.
  split; [exact (perform_ready_eq fuel (OpFindAnimals props) options s Hr)|].
  split.
  { subst s' _options. unfold performed, options_of. cbn [sources_of thunk_of].
    destruct (defaults (heap s) options _) as [h lo]. reflexivity. }
  cbn [resume from_option after app fmap option_fmap option_map]. unfold if_complete. rewrite Hc.
  cbn [truthy]. fold isV1. rewrite (mapM_render isV1 animals Hids). reflexivity.
Qed.

(** The witness: two documents, one of them without props. *)
Lemma findAnimals_delivers_every_animal_witness :
  let animals : list (gmap string jsval) :=
    [ {[ "_id" := JId "59a1f0c2e4b0a1b2c3d4e5f6"; "props" := JNull ]};
      {[ "_id" := JId "59a1f0c2e4b0a1b2c3d4e5f7"; "petId" := JStr "xyz" ]} ] in
  let s' := performed (OpFindAnimals ∅) (JObj 2%positive) example_db in
  let _options := options_of (OpFindAnimals ∅) (JObj 2%positive) example_db in
  let isV1 := truthy (get "isV1Format" (deref (heap s') (JObj _options))) in
  findAnimals 3 ∅ (JObj 2%positive) example_db = Some s'
  /\ trace s' = (trace example_db ++
                 [Store (ReqFind (toMongoQuery (MongooseModel example_db) ∅))
                        (KStaticFindAnimals (KFindAnimals _options))])%list
  /\ resume "/srv/api" s' (KStaticFindAnimals (KFindAnimals _options)) None (Docs animals)
     = Returned [Call (JFun "AnimalDatabase.complete") (JObj _options)
                   [AVal JNull;
                    AAnimals ((fun a => Rendered isV1 (get "props" a) (String_of (get "_id" a)))
                                <$> animals)]].
Proof.
  apply (findAnimals_delivers_every_animal 0 "/srv/api" ∅ (JObj 2%positive) example_db
           "AnimalDatabase.complete"
           [ {[ "_id" := JId "59a1f0c2e4b0a1b2c3d4e5f6"; "props" := JNull ]};
             {[ "_id" := JId "59a1f0c2e4b0a1b2c3d4e5f7"; "petId" := JStr "xyz" ]} ]).
  - repeat split; reflexivity.
  - vm_compute. reflexivity.
  - repeat constructor; discriminate.
Defined.

(** X13: getLatest asks for one document, sorted by timestamp, latest
    first, and calls back with an error alone or with null and a
    document, never with both and never with neither: the store's error
    if there is one, 'Model collection is empty()' if there is no
    document. *)
Theorem getLatest_error_or_document cwd s callback err res :
  getLatest (Plain (JFun callback))
  = [Store (ReqFindOneSorted ∅ "timestamp" (-1)) (KGetLatest (Plain (JFun callback)))]
  /\ exists args,
       resume cwd s (KGetLatest (Plain (JFun callback))) err res
       = Returned [Call (JFun callback) JUndefined args]
       /\ ((exists e, args = [AVal (JErr e)]
                      /\ e = default (Error "Model collection is empty()") err
                      /\ (is_Some err \/ res = Absent))
           \/ (exists a, args = [AVal JNull; a] /\ err = None /\ result_args res = [a])).
Proof.
  split; [reflexivity|].
  destruct err as [e|]; [|destruct res]; eexists; (split; [reflexivity|]).
  - left. eexists. repeat split. left. eauto.
  - left. eexists. repeat split. right. reflexivity.
  - right. eexists. repeat split.
  - right. eexists. repeat split.
  - right. eexists. repeat split.
Qed.

(** X14: create on a ready Database issues one save of the hydrated
    payload as it is, [_id] and [__v] included; when the store answers
    with the saved document the completion callback gets it with a null
    error, and with the wrapped and logged error if the store reported
    one along with the document. *)
Theorem create_delivers_saved_document fuel cwd saveProps options s complete :
  let s' := performed (OpCreate saveProps) options s in
  let _options := options_of (OpCreate saveProps) options s in
  let ctx := context_of s' _options in
  ready s ->
  get "complete" (deref (heap s') (JObj _options)) = JFun complete ->
  create (S (S (S fuel))) saveProps options s = Some s'
  /\ trace s' = (trace s ++ [Store (ReqSave (newToObject (MongooseModel s) saveProps))
                                   (KCreate _options)])%list
  /\ (forall savedDoc,
        resume cwd s' (KCreate _options) None (Doc savedDoc)
        = Returned [Call (JFun complete) ctx [AVal JNull; ADoc savedDoc]])
  /\ (forall e savedDoc,
        resume cwd s' (KCreate _options) (Some e) (Doc savedDoc)
        = Returned [LogError (DBErrorOf e);
                    Call (JFun complete) ctx [AVal (JErr (DBErrorOf e)); ADoc savedDoc]]).
Proof.
  intros s' _options ctx Hr Hc.
  split; [exact (perform_ready_eq fuel (OpCreate saveProps) options s Hr)|].
  split.
  { subst s' _options. unfold performed, options_of. cbn [sources_of thunk_of].
    destruct (defaults (heap s) options _) as [h lo]. reflexivity. }
  repeat split; intros; cbn [resume]; unfold if_complete; rewrite Hc; reflexivity.
Qed.

(** The witness: the example database. *)
Lemma create_delivers_saved_document_witness :
  let saveProps : gmap string jsval := {[ "name" := JStr "New" ]} in
  let s' := performed (OpCreate saveProps) (JObj 2%positive) example_db in
  let _options := options_of (OpCreate saveProps) (JObj 2%positive) example_db in
  let ctx := context_of s' _options in
  create 3 saveProps (JObj 2%positive) example_db = Some s'
  /\ trace s' = (trace example_db ++
                 [Store (ReqSave (newToObject (MongooseModel example_db) saveProps))
                        (KCreate _options)])%list
  /\ (forall savedDoc,
        resume "/srv/api" s' (KCreate _options) None (Doc savedDoc)
        = Returned [Call (JFun "AnimalDatabase.complete") ctx [AVal JNull; ADoc savedDoc]])
  /\ (forall e savedDoc,
        resume "/srv/api" s' (KCreate _options) (Some e) (Doc savedDoc)
        = Returned [LogError (DBErrorOf e);
                    Call (JFun "AnimalDatabase.complete") ctx
                      [AVal (JErr (DBErrorOf e)); ADoc savedDoc]]).
Proof.
  apply (create_delivers_saved_document 0 "/srv/api" {[ "name" := JStr "New" ]}
           (JObj 2%positive) example_db "AnimalDatabase.complete").
  - repeat split; reflexivity.
  - vm_compute. reflexivity.
Defined.

(** ** The post-update middleware *)

(** X15: the post-findOneAndUpdate middleware leaves a null result and a
    document without [_id] alone; on a document with an [_id] it sets
    [petId] to the string form of the [_id], whatever [petId] was there,
    and touches no other field; running it again changes nothing. *)
Theorem post_update_hook_mirrors_id doc :
  post_findOneAndUpdate (post_findOneAndUpdate doc) = post_findOneAndUpdate doc
  /\ (doc = None -> post_findOneAndUpdate doc = None)
  /\ (forall d, doc = Some d -> truthy (get "_id" d) = false -> post_findOneAndUpdate doc = Some d)
  /\ (forall d, doc = Some d -> truthy (get "_id" d) = true ->
        exists d', post_findOneAndUpdate doc = Some d'
                   /\ get "petId" d' = JStr (String_of (get "_id" d))
                   /\ forall k, k <> "petId" -> d' !! k = d !! k).
Proof.
  split; [|split; [|split]].
  - destruct doc as [d|]; [|reflexivity]. cbn [post_findOneAndUpdate].
    destruct (truthy (get "_id" d)) eqn:E; cbn [post_findOneAndUpdate].
    + assert (Hid : get "_id" (<["petId" := JStr (String_of (get "_id" d))]> d) = get "_id" d).
      { unfold get. rewrite lookup_insert_ne by discriminate. reflexivity. }
      rewrite Hid, E, insert_insert_eq. reflexivity.
    + rewrite E. reflexivity.
  - intros ->. reflexivity.
  - intros d -> E. cbn [post_findOneAndUpdate]. rewrite E. reflexivity.
  - intros d -> E. cbn [post_findOneAndUpdate]. rewrite E. eexists. split; [reflexivity|].
    split.
    + unfold get. rewrite lookup_insert_eq. reflexivity.
    + intros k Hk. rewrite lookup_insert_ne by congruence. reflexivity.
Qed.

(** The witness: a document whose petId differs from its [_id]. *)
Lemma post_update_hook_mirrors_id_witness :
  let d : gmap string jsval :=
    {[ "_id" := JId "59a1f0c2e4b0a1b2c3d4e5f6"; "petId" := JStr "xyz"; "name" := JStr "Rex" ]} in
  exists d', post_findOneAndUpdate (Some d) = Some d'
             /\ get "petId" d' = JStr (String_of (get "_id" d))
             /\ forall k, k <> "petId" -> d' !! k = d !! k.
Proof.
  apply (proj2 (proj2 (proj2 (post_update_hook_mirrors_id
           (Some {[ "_id" := JId "59a1f0c2e4b0a1b2c3d4e5f6"; "petId" := JStr "xyz";
                    "name" := JStr "Rex" ]}))))).
  - reflexivity.
  - reflexivity.
Defined.

(** ** Timestamps *)




(** ** Prototypes *)

Lemma extend_lookup object source k :
  extend object source !! k = match source !! k with Some f => Some f | None => object !! k end.
Proof.
  unfold extend. rewrite lookup_union. destruct (source !! k), (object !! k); reflexivity.
Qed.

(** X17: extending a prototype with the base prototype replaces every
    method the base also has.  TimestampedDatabase defines findLatest and
    is then extended with a base that has a findLatest of its own, so its
    instances run the base's; the base's other methods are all there too.
    With the Database of lib/database/index.js as base, findLatest is the
    one of that file, whatever Debuggable adds, unless Debuggable has a
    findLatest itself. *)
Theorem timestamped_findLatest_is_the_base_one base :
  is_Some (base !! "findLatest") ->
  TimestampedDatabase_prototype base !! "findLatest" = base !! "findLatest"
  /\ (forall k, is_Some (base !! k) -> TimestampedDatabase_prototype base !! k = base !! k)
  /\ (forall debuggable,
        base = Database_prototype debuggable -> debuggable !! "findLatest" = None ->
        TimestampedDatabase_prototype base !! "findLatest"
        = Some (Impl "lib/database/index.js" "findLatest")).
Proof.
  intros Hb.
  assert (Hall : forall k, is_Some (base !! k) -> TimestampedDatabase_prototype base !! k = base !! k).
  { intros k [f Hf]. unfold TimestampedDatabase_prototype. rewrite extend_lookup, Hf. reflexivity. }
  split; [apply Hall, Hb|]. split; [exact Hall|].
  intros debuggable -> Hd. rewrite (Hall _ Hb).
  unfold Database_prototype. rewrite extend_lookup, Hd. reflexivity.
Qed.

(** The witness: Debuggable with the methods the three files call on it. *)
Lemma timestamped_findLatest_is_the_base_one_witness :
  let debuggable : gmap string impl :=
    list_to_map ((fun m => (m, Impl "lib/debuggable/index.js" m)) <$>
      ["log"; "warn"; "error"; "dump"; "setDebugLevel"; "setDebugTag"]) in
  TimestampedDatabase_prototype (Database_prototype debuggable) !! "findLatest"
  = Some (Impl "lib/database/index.js" "findLatest").
Proof.
  intros debuggable.
  apply (proj2 (proj2 (timestamped_findLatest_is_the_base_one (Database_prototype debuggable)
                         (ex_intro _ (Impl "lib/database/index.js" "findLatest") eq_refl)))
           debuggable eq_refl).
  reflexivity.
Defined.

(** X18: the methods AnimalDatabase defines itself are not among the
    base's, so extending its prototype with the Database prototype keeps
    each of them and adds every method of the base. *)
Theorem animal_methods_survive_extension debuggable k :
  AnimalDatabase_methods !! k = Some (Impl "animal.js" k) ->
  debuggable !! k = None ->
  AnimalDatabase_prototype (Database_prototype debuggable) !! k = Some (Impl "animal.js" k)
  /\ (forall k', is_Some (Database_prototype debuggable !! k') ->
        AnimalDatabase_prototype (Database_prototype debuggable) !! k'
        = Database_prototype debuggable !! k').
Proof.
  intros Hk Hd. split.
  - unfold AnimalDatabase_prototype, Database_prototype.
    rewrite !extend_lookup, Hd, Hk.
    assert (Hn : Database_methods !! k = None).
    { destruct (Database_methods !! k) as [f|] eqn:E; [|reflexivity]. exfalso.
      apply (elem_of_list_to_map_2 (M := gmap string)) in E.
      apply (elem_of_list_to_map_2 (M := gmap string)) in Hk.
      apply list_elem_of_In in E. apply list_elem_of_In in Hk.
      simpl in E, Hk.
      repeat match goal with
             | H : _ \/ _ |- _ => destruct H
             | H : (_, _) = (_, _) |- _ => injection H as <- <-
             | H : False |- _ => destruct H
             end; discriminate. }
    rewrite Hn. reflexivity.
  - intros k' [f Hf]. unfold AnimalDatabase_prototype. rewrite extend_lookup, Hf. reflexivity.
Qed.

(** The witness: saveAnimal. *)
Lemma animal_methods_survive_extension_witness :
  AnimalDatabase_prototype (Database_prototype ∅) !! "saveAnimal" = Some (Impl "animal.js" "saveAnimal")
  /\ (forall k', is_Some (Database_prototype ∅ !! k') ->
        AnimalDatabase_prototype (Database_prototype ∅) !! k' = Database_prototype ∅ !! k').
Proof.
  apply (animal_methods_survive_extension ∅ "saveAnimal"); reflexivity.
Defined.

(** ** The AnimalDatabase constructor *)

(** X19: constructed with an options object, an AnimalDatabase takes the
    caller's [queryOptions] whole when there is one, by reference and
    without the default [complete] and [isV1Format] merged in, and the
    default object otherwise; its [isDevelopment] setting is read from the
    key [DEVELOPMENT_ENV], so an [isDevelopment] option has no effect;
    the caller's options object is itself filled with the defaults; and
    the Database starts with an empty queue, inactive, connecting. *)
Theorem AnimalDatabase_configuration m PROD development h l o :
  h !! l = Some o ->
  let s := AnimalDatabase m PROD development h (JObj l) in
  let lq := fresh (dom h) in
  getConfig "isDevelopment" s = get "DEVELOPMENT_ENV" o
  /\ (forall v, o !! "queryOptions" = Some v -> v <> JUndefined ->
        getConfig "queryOptions" s = v)
  /\ (unset "queryOptions" o ->
        getConfig "queryOptions" s = JObj lq
        /\ heap s !! lq = Some default_queryOptions
        /\ h !! lq = None)
  /\ heap s !! l = Some (defaults1 o (AnimalDatabase_defaults PROD development lq))
  /\ (unset "collectionNamePrefix" o ->
        collectionName (MongooseModel s) = if development then "dev_animal" else "prod_animal")
  /\ _queue s = [] /\ isActive s = false /\ _adapter s = Adapter.connecting.
Proof.
  intros Hl s lq.
  assert (Hfresh : h !! lq = None) by (apply not_elem_of_dom, is_fresh).
  assert (Hne : lq <> l) by (intros E; rewrite E, Hl in Hfresh; discriminate).
  set (D := AnimalDatabase_defaults PROD development lq).
  assert (Hs : s = setConfig "queryOptions" (get "queryOptions" (defaults1 o D))
                 (setConfig "isDevelopment" (get "DEVELOPMENT_ENV" (defaults1 o D))
                    (new_Database
                       {| newToObject := newToObject m; toMongoQuery := toMongoQuery m;
                          collectionName :=
                            (String_of (get "collectionNamePrefix" (defaults1 o D)) ++ "animal")%string;
                          modelName := modelName m; momentOther := momentOther m |}
                       (<[l := defaults1 o D]> (<[lq := default_queryOptions]> h)) ∅))).
  { subst s. unfold AnimalDatabase. cbn [alloc defaults]. fold lq.
    rewrite lookup_insert_ne by exact Hne. rewrite Hl. cbn [default deref].
    rewrite lookup_insert_eq. cbn [default]. unfold defaults_obj. cbn [foldl source_obj]. fold D.
    reflexivity. }
  assert (HD : forall k, k <> "debugLevel" -> k <> "debugTag" -> k <> "collectionNamePrefix" ->
                         k <> "queryOptions" -> D !! k = None).
  { intros k H1 H2 H3 H4. unfold D, AnimalDatabase_defaults.
    rewrite !lookup_insert_ne by congruence. apply lookup_singleton_ne. congruence. }
  rewrite Hs. unfold getConfig, setConfig, get.
  cbn [set_config new_Database _config heap _queue isActive _isActive _adapter MongooseModel
       collectionName Adapter.connect].
  split.
  { rewrite lookup_insert_ne by discriminate. rewrite lookup_insert_eq. cbn [default].
    rewrite defaults1_skip by (apply HD; discriminate). reflexivity. }
  split.
  { intros v Hv Hu. rewrite lookup_insert_eq. cbn [default].
    rewrite defaults1_lookup, Hv. destruct v; try reflexivity; [contradiction|..];
      destruct (D !! "queryOptions"); reflexivity. }
  split.
  { intros Hu. rewrite lookup_insert_eq. cbn [default].
    rewrite (defaults1_fills o D "queryOptions" (JObj lq) Hu) by reflexivity.
    split; [reflexivity|]. split; [|exact Hfresh].
    rewrite lookup_insert_ne by (intros E; apply Hne; symmetry; exact E).
    apply lookup_insert_eq. }
  split; [apply lookup_insert_eq|].
  split.
  { intros Hu.
    rewrite (defaults1_fills o D "collectionNamePrefix"
               (JStr (if development then "dev_" else "prod_")) Hu) by reflexivity.
    destruct development; reflexivity. }
  repeat split.
Qed.

(** The witness: a caller that passes its own query options and the
    documented [isDevelopment]. *)
Lemma AnimalDatabase_configuration_witness :
  let o : gmap string jsval := {[ "isDevelopment" := JBool true; "queryOptions" := JObj 7%positive ]} in
  let h : gmap positive (gmap string jsval) :=
    {[ 3%positive := o; 7%positive := {[ "isV1Format" := JBool false ]} ]} in
  let s := AnimalDatabase example_model (JNum 0) false h (JObj 3%positive) in
  let lq := fresh (dom h) in
  getConfig "isDevelopment" s = get "DEVELOPMENT_ENV" o
  /\ (forall v, o !! "queryOptions" = Some v -> v <> JUndefined ->
        getConfig "queryOptions" s = v)
  /\ (unset "queryOptions" o ->
        getConfig "queryOptions" s = JObj lq
        /\ heap s !! lq = Some default_queryOptions
        /\ h !! lq = None)
  /\ heap s !! 3%positive = Some (defaults1 o (AnimalDatabase_defaults (JNum 0) false lq))
  /\ (unset "collectionNamePrefix" o ->
        collectionName (MongooseModel s) = if false then "dev_animal" else "prod_animal")
  /\ _queue s = [] /\ isActive s = false /\ _adapter s = Adapter.connecting.
Proof.
  apply (AnimalDatabase_configuration example_model (JNum 0) false
           {[ 3%positive := {[ "isDevelopment" := JBool true; "queryOptions" := JObj 7%positive ]};
              7%positive := {[ "isV1Format" := JBool false ]} ]} 3%positive
           {[ "isDevelopment" := JBool true; "queryOptions" := JObj 7%positive ]}).
  reflexivity.
Defined.

(** What that caller ends up with: no [isDevelopment] setting, and query
    options without a completion callback. *)
Lemma AnimalDatabase_configuration_example :
  let s := AnimalDatabase example_model (JNum 0) false
             {[ 3%positive := {[ "isDevelopment" := JBool true; "queryOptions" := JObj 7%positive ]};
                7%positive := {[ "isV1Format" := JBool false ]} ]} (JObj 3%positive) in
  getConfig "isDevelopment" s = JUndefined
  /\ getConfig "queryOptions" s = JObj 7%positive
  /\ get "complete" (deref (heap s) (getConfig "queryOptions" s)) = JUndefined.
Proof. vm_compute. repeat split. Qed.

(** ** The two hooks together *)

(** X20: a record created through the post-save middleware, with its
    [petId] assigned from its [_id], is left as it is by both
    middlewares afterwards: saving it again changes neither the record
    nor the collection, and the post-update middleware returns it
    unchanged. *)
Theorem created_record_is_stable fuel fuel' saveData coll new_id :
  truthy (get "petId" saveData) = false ->
  truthy (get "_id" saveData) = false ->
  new_id <> "" ->
  (forall d, In d coll -> get "_id" d <> JId new_id) ->
  let record := <["petId" := JStr new_id]> (<["_id" := JId new_id]> saveData) in
  let coll' := (coll ++ [record])%list in
  Store.model_create true (S (S fuel)) new_id saveData coll = Some (coll', (None, Doc record))
  /\ Store.doc_save true (S fuel') record coll' = Some (record, coll')
  /\ post_findOneAndUpdate (Some record) = Some record.
Proof.
  intros Hp Hi Hne Hfresh record coll'.
  assert (Hid0 : get "_id" (<["_id" := JId new_id]> saveData) = JId new_id).
  { unfold get. rewrite lookup_insert_eq. reflexivity. }
  assert (Hid : get "_id" record = JId new_id).
  { unfold get, record. rewrite lookup_insert_ne by discriminate. exact Hid0. }
  assert (Hpet0 : get "petId" (<["_id" := JId new_id]> saveData) = get "petId" saveData).
  { unfold get. rewrite lookup_insert_ne by discriminate. reflexivity. }
  assert (Hpet : get "petId" record = JStr new_id).
  { unfold get, record. rewrite lookup_insert_eq. reflexivity. }
  assert (Htruthy : truthy (get "petId" record) = true).
  { rewrite Hpet. cbn [truthy]. destruct (String.eqb_spec new_id ""); [contradiction|reflexivity]. }
  assert (Hpersist0 : Store.persist (<["_id" := JId new_id]> saveData) coll
                      = (coll ++ [<["_id" := JId new_id]> saveData])%list).
  { apply persist_fresh. rewrite Hid0. exact Hfresh. }
  assert (Hpersist : Store.persist record (coll ++ [<["_id" := JId new_id]> saveData]) = coll').
  { apply persist_last; [rewrite Hid; exact Hfresh|rewrite Hid, Hid0; reflexivity]. }
  assert (Hagain : Store.persist record coll' = coll').
  { apply persist_last; [rewrite Hid; exact Hfresh|reflexivity]. }
  split; [|split].
  - unfold Store.model_create, Store.assign_id. rewrite Hi.
    rewrite (doc_save_assigns (S fuel) _ coll new_id);
      [|rewrite Hpet0; exact Hp|rewrite Hid0; reflexivity].
    fold record. rewrite Hpersist0, (doc_save_keeps fuel record _ Htruthy), Hpersist. reflexivity.
  - rewrite (doc_save_keeps fuel' record coll' Htruthy), Hagain. reflexivity.
  - cbn [post_findOneAndUpdate]. rewrite Hid. cbn [truthy String_of]. f_equal.
    apply map_eq. intros k. destruct (decide (k = "petId")) as [->|Hk].
    + rewrite lookup_insert_eq. unfold record. rewrite lookup_insert_eq. reflexivity.
    + rewrite lookup_insert_ne by congruence. reflexivity.
Qed.

(** The witness: the record of the spec's second example. *)
Lemma created_record_is_stable_witness :
  let saveData : gmap string jsval := {[ "name" := JStr "New" ]} in
  let record : gmap string jsval :=
    <["petId" := JStr "59a1f0c2e4b0a1b2c3d4e5f6"]> (<["_id" := JId "59a1f0c2e4b0a1b2c3d4e5f6"]> saveData) in
  let coll' := ([] ++ [record])%list in
  Store.model_create true 2 "59a1f0c2e4b0a1b2c3d4e5f6" saveData [] = Some (coll', (None, Doc record))
  /\ Store.doc_save true 1 record coll' = Some (record, coll')
  /\ post_findOneAndUpdate (Some record) = Some record.
Proof.
  apply (created_record_is_stable 0 0 {[ "name" := JStr "New" ]} [] "59a1f0c2e4b0a1b2c3d4e5f6").
  - reflexivity.
  - reflexivity.
  - discriminate.
  - intros d [].
Defined.

(** ** Connecting once *)

Lemma execs_not_connected_not_closed fuel : forall funcs s,
  Adapter.isConnected (_adapter s) = false ->
  Adapter.isClosed (_adapter s) = false ->
  execs (S fuel) funcs s = Some (set_queue (_queue s ++ pushed funcs) s).
Proof.
  induction funcs as [|f funcs IH]; intros s Hc Hcl.
  - simpl. rewrite app_nil_r. destruct s; reflexivity.
  - cbn [execs]. rewrite exec_blocked by (rewrite Hc; reflexivity).
    rewrite Hcl. cbn [mbind option_bind].
    rewrite IH by (destruct f; assumption).
    destruct f; simpl; [rewrite <- app_assoc|]; reflexivity.
Qed.

(** X21: however many [exec] calls are made on a Database whose adapter
    is closed, the adapter is asked to connect once, by the first of
    them; every function handed over is queued in the order of the
    calls and none is applied. *)
Theorem closed_adapter_is_asked_to_connect_once fuel func funcs s :
  _adapter s = Adapter.closed ->
  exists s',
    execs (S fuel) (func :: funcs) s = Some s'
    /\ trace s' = (trace s ++ [Connect])%list
    /\ _queue s' = (_queue s ++ pushed (func :: funcs))%list
    /\ _adapter s' = Adapter.connecting.
Proof.
  intros Ha. eexists. split.
  - cbn [execs]. rewrite exec_blocked by (rewrite Ha; reflexivity).
    rewrite Ha. cbn [Adapter.isClosed Adapter.connect mbind option_bind].
    apply execs_not_connected_not_closed; reflexivity.
  - cbn [set_queue emit set_adapter trace _queue _adapter].
    split; [destruct func; reflexivity|]. split; [|reflexivity].
    destruct func; simpl; [rewrite <- app_assoc|]; reflexivity.
Qed.

(** The witness: the example database after [stop()]. *)
Lemma closed_adapter_is_asked_to_connect_once_witness :
  exists s',
    execs 1 [Some (plain_callable "f"); None; Some (plain_callable "g")] (stop example_db) = Some s'
    /\ trace s' = (trace (stop example_db) ++ [Connect])%list
    /\ _queue s' = (_queue (stop example_db)
                    ++ pushed [Some (plain_callable "f"); None; Some (plain_callable "g")])%list
    /\ _adapter s' = Adapter.connecting.
Proof.
  apply (closed_adapter_is_asked_to_connect_once 0 (Some (plain_callable "f"))
           [None; Some (plain_callable "g")] (stop example_db)).
  reflexivity.
Defined.

(** ** The call forms of upsert *)

(** X22: upsert takes its completion callback from the fourth argument
    when the third is a plain object and from the third otherwise.  In
    both forms the callback gets null and the document when the store
    answers with a document.  On a failure the update branch logs the
    store's error and calls back with it, not wrapped, and with what the
    store handed over as the document, two arguments in all; the create
    branch calls back with the error alone.  When the store answers with
    neither error nor document, the update branch throws on reading
    [animal._id] and calls nothing, and the create branch calls back
    with the error 'Animal could not be created'. *)
Theorem upsert_calls_back_in_both_forms cwd s h searchProps saveData l other f :
  forall r k,
    In (Store r k) (snd (upsert h searchProps saveData (Plain (JFun f)) other))
    \/ In (Store r k) (snd (upsert h searchProps saveData (Plain (JObj l)) (Plain (JFun f)))) ->
    let updating := truthy (get "petId" searchProps) in
    (forall doc,
       resume cwd s k None (Doc doc)
       = Returned [Call (JFun f) JUndefined [AVal JNull; ADoc doc]])
    /\ (forall e,
          resume cwd s k (Some e) Absent
          = Returned (if updating
                      then [LogError e; Call (JFun f) JUndefined [AVal (JErr e); AAbsent]]
                      else [Call (JFun f) JUndefined [AVal (JErr e)]]))
    /\ resume cwd s k None Absent
       = (if updating
          then Thrown [] "TypeError: cannot read property _id of null"
          else Returned [Call (JFun f) JUndefined
                           [AVal (JErr (Error "Animal could not be created"))]]).
Proof.
  intros r k. unfold upsert.
  cbn [closure_isPlainObject isPlainObject defaults snd].
  destruct (truthy (get "petId" searchProps)); cbn [snd In];
    intros [[[= <- <-]|[]]|[[= <- <-]|[]]];
    (split; [intros doc; reflexivity|split; [intros e; reflexivity|reflexivity]]).
Qed.

(** The witness: the three-argument form, on an animal with a petId. *)
Lemma upsert_calls_back_in_both_forms_witness :
  let k := KUpsertUpdated (Plain (JFun "done")) in
  let updating := truthy (get "petId" ({[ "petId" := JStr "abc" ]} : gmap string jsval)) in
  (forall doc,
     resume "/srv/api" example_db k None (Doc doc)
     = Returned [Call (JFun "done") JUndefined [AVal JNull; ADoc doc]])
  /\ (forall e,
        resume "/srv/api" example_db k (Some e) Absent
        = Returned (if updating
                    then [LogError e; Call (JFun "done") JUndefined [AVal (JErr e); AAbsent]]
                    else [Call (JFun "done") JUndefined [AVal (JErr e)]]))
  /\ resume "/srv/api" example_db k None Absent
     = (if updating
        then Thrown [] "TypeError: cannot read property _id of null"
        else Returned [Call (JFun "done") JUndefined
                         [AVal (JErr (Error "Animal could not be created"))]]).
Proof.
  apply (upsert_calls_back_in_both_forms "/srv/api" example_db ∅
           {[ "petId" := JStr "abc" ]} {[ "name" := JStr "Rex" ]} 2%positive (Plain JUndefined) "done"
           (ReqFindOneAndUpdate {[ "petId" := JStr "abc" ]} {[ "name" := JStr "Rex" ]} (JObj 1%positive))
           (KUpsertUpdated (Plain (JFun "done")))).
  left. left. reflexivity.
Defined.

(** ** Functions that throw *)

Lemma threw_emit_Threw s evs name : threw s (emit [Threw name] (emit evs s)) = true.
Proof.
  unfold threw. cbn [emit trace]. rewrite last_snoc, !length_app. cbn [length].
  apply andb_true_intro. split; [apply Nat.ltb_lt; lia|reflexivity].
Qed.

(** [exec] on a connected, active Database whose queue is headed by a
    function that throws: the function is applied, the exception leaves
    [exec] before the [shift()], and what was handed over stays queued. *)
Lemma exec_head_throws fuel name body q func s :
  (forall n, body n = ([], true)) ->
  _adapter s = Adapter.connected -> _isActive s = true ->
  _queue s = Throwing name body :: q ->
  exec (S (S fuel)) func s = Some (emit [Threw name] (emit [Ran name] (enqueue func s))).
Proof.
  intros Hbody Ha Hi Hq. cbn [exec].
  assert (Ha' : _adapter (enqueue func s) = Adapter.connected) by (destruct func; exact Ha).
  assert (Hi' : isActive (enqueue func s) = true) by (destruct func; exact Hi).
  assert (Hq' : exists q', _queue (enqueue func s) = Throwing name body :: q').
  { destruct func; simpl; rewrite Hq; eauto. }
  destruct Hq' as [q' Hq'].
  rewrite Ha', Hi'. cbn [Adapter.isConnected andb processQueue]. rewrite Hq'.
  cbn [apply_thunk]. rewrite Hbody. cbn [call_execs mbind option_bind andb].
  assert (Hr : threw (enqueue func s) (emit [Ran name] (enqueue func s)) = false).
  { apply (threw_snoc _ (trace (enqueue func s)) (Ran name)); [reflexivity|discriminate]. }
  rewrite Hr. cbn [negb]. rewrite threw_emit_Threw. reflexivity.
Qed.

Lemma execs_head_throws fuel name body : forall funcs q s,
  (forall n, body n = ([], true)) ->
  _adapter s = Adapter.connected -> _isActive s = true ->
  _queue s = Throwing name body :: q ->
  exists s',
    execs (S (S fuel)) funcs s = Some s'
    /\ trace s' = (trace s ++ concat (replicate (length funcs) [Ran name; Threw name]))%list
    /\ _queue s' = (Throwing name body :: q ++ pushed funcs)%list.
Proof.
  induction funcs as [|f funcs IH]; intros q s Hbody Ha Hi Hq.
  - exists s. cbn. rewrite !app_nil_r. auto.
  - cbn [execs]. rewrite (exec_head_throws fuel name body q f s Hbody Ha Hi Hq).
    cbn [mbind option_bind].
    destruct (IH (q ++ pushed [f])%list
                 (emit [Threw name] (emit [Ran name] (enqueue f s))) Hbody) as (s' & E & Ht & Hq').
    + destruct f; exact Ha.
    + destruct f; exact Hi.
    + destruct f; cbn; rewrite Hq; cbn; rewrite ?app_nil_r; reflexivity.
    + exists s'. split; [exact E|]. split.
      * rewrite Ht. cbn [emit trace length replicate concat].
        assert (Htr : trace (enqueue f s) = trace s) by (destruct f; reflexivity).
        rewrite Htr, <- !app_assoc. reflexivity.
      * rewrite Hq'. f_equal. rewrite <- app_assoc. f_equal.
        unfold pushed. destruct f; reflexivity.
Qed.

(** X23: a function that throws when it is applied is not taken off the
    queue: the exception leaves the loop before the [shift()].  Every
    later [exec], however many, applies that function again, first, and
    it throws again; nothing queued behind it is ever applied, and the
    queue only grows. *)
Theorem throwing_function_blocks_the_queue fuel name body funcs s :
  ready s ->
  (forall n, body n = ([], true)) ->
  exists s',
    execs (S (S fuel)) (Some (Throwing name body) :: funcs) s = Some s'
    /\ trace s'
       = (trace s ++ concat (replicate (S (length funcs)) [Ran name; Threw name]))%list
    /\ _queue s' = Throwing name body :: pushed funcs.
Proof.
  intros (Ha & Hi & Hq) Hbody.
  assert (E0 : exec (S (S fuel)) (Some (Throwing name body)) s
               = Some (emit [Ran name; Threw name] (set_queue [Throwing name body] s))).
  { cbn [exec enqueue]. cbn [set_queue _adapter isActive _isActive].
    rewrite Ha, Hi, Hq. cbn [Adapter.isConnected andb app processQueue set_queue _queue].
    cbn [apply_thunk]. rewrite Hbody. cbn [call_execs mbind option_bind andb].
    assert (Hr : threw (set_queue [Throwing name body] s)
                       (emit [Ran name] (set_queue [Throwing name body] s)) = false).
    { apply (threw_snoc _ (trace s) (Ran name)); [reflexivity|discriminate]. }
    rewrite Hr. cbn [negb]. rewrite threw_emit_Threw.
    f_equal. unfold emit. simpl. rewrite <- app_assoc. reflexivity. }
  cbn [execs]. rewrite E0. cbn [mbind option_bind].
  destruct (execs_head_throws fuel name body funcs []
              (emit [Ran name; Threw name] (set_queue [Throwing name body] s)) Hbody Ha Hi eq_refl)
    as (s' & E & Ht & Hq').
  exists s'. split; [exact E|]. split; [|exact Hq'].
  rewrite Ht. cbn [emit set_queue trace replicate concat]. rewrite <- ?app_assoc. reflexivity.
Qed.

(** The witness: after the function that throws, a function and a kick. *)
Lemma throwing_function_blocks_the_queue_witness :
  exists s',
    execs 2 (Some (Throwing "boom" (fun _ => ([], true))) :: [Some second; None]) example_db
    = Some s'
    /\ trace s'
       = (trace example_db
          ++ concat (replicate (S (length [Some second; None])) [Ran "boom"; Threw "boom"]))%list
    /\ _queue s' = Throwing "boom" (fun _ => ([], true)) :: pushed [Some second; None].
Proof.
  apply (throwing_function_blocks_the_queue 0 "boom" (fun _ => ([], true)) [Some second; None]
           example_db).
  - repeat split; reflexivity.
  - intros n. reflexivity.
Defined.
